(** * torch_xla_py/xla_model.py: the tensor arena, the structural walker,
      the rehydrator, the optimizer-state collector and the step synchronizer.

    The Python code is embedded shallowly.  Python objects are values of
    [pyval]; the arena object, which the walker and the rehydrator mutate, is
    threaded through a state-and-exception monad whose state survives a raised
    exception (a failed [assert] leaves the arena as it was mutated so far).
    The external runtime ([torch_xla._XLAC], [optimizer.step],
    [gs.save_tensors_graph], [os.environ]) is a record of handlers over an
    abstract world, and every call to it is logged in a trace. *)

From Stdlib Require Import String ZArith QArith Bool Arith Lia List.
From Stdlib Require Import Decimal DecimalString DecimalZ DecimalPos FinFun.
Import ListNotations.

Set Implicit Arguments.

(* ================================================================== *)
(** ** Python values *)

(** The buffer classes the module is used with.  [TorchParameter] is a
    subclass of [TorchTensor]; [XLATensor] is unrelated to both. *)
Inductive bufclass : Type :=
| TorchTensor
| TorchParameter
| XLATensor.

Unset Elimination Schemes.

(** A buffer object: its class, its identity and its [.grad] attribute. *)
Inductive tensor : Type :=
| Tensor (cls : bufclass) (tid : Z) (grad : option tensor).

(** Python objects.  A set and a dict list their elements in iteration
    order. *)
Inductive pyval : Type :=
| VNone
| VInt (n : Z)
| VStr (s : string)
| VTensor (t : tensor)
| VIndex (index : Z)                       (* LinearIndex(index) *)
| VList (l : list pyval)
| VTuple (l : list pyval)
| VSet (l : list pyval)
| VDict (items : list (pyval * pyval)).

Set Elimination Schemes.

(** [type(x)] *)
Inductive pytype : Type :=
| TyNone
| TyInt
| TyStr
| TyBuffer (c : bufclass)
| TyLinearIndex
| TyList
| TyTuple
| TySet
| TyDict.

(** The exceptions raised: by a failed [assert], by an index out of range,
    by too deep a recursion, and by foreign code. *)
Inductive exn : Type :=
| AssertionError
| IndexError
| RecursionError
| ExternalError (msg : string).

Definition bufclass_eqb (a b : bufclass) : bool :=
  match a, b with
  | TorchTensor, TorchTensor => true
  | TorchParameter, TorchParameter => true
  | XLATensor, XLATensor => true
  | _, _ => false
  end.

Definition pytype_eqb (a b : pytype) : bool :=
  match a, b with
  | TyNone, TyNone => true
  | TyInt, TyInt => true
  | TyStr, TyStr => true
  | TyBuffer c, TyBuffer d => bufclass_eqb c d
  | TyLinearIndex, TyLinearIndex => true
  | TyList, TyList => true
  | TyTuple, TyTuple => true
  | TySet, TySet => true
  | TyDict, TyDict => true
  | _, _ => false
  end.

Definition tensor_cls (t : tensor) : bufclass :=
  match t with Tensor c _ _ => c end.

Definition tensor_id (t : tensor) : Z :=
  match t with Tensor _ i _ => i end.

Definition tensor_grad (t : tensor) : option tensor :=
  match t with Tensor _ _ g => g end.

Definition type_ (x : pyval) : pytype :=
  match x with
  | VNone => TyNone
  | VInt _ => TyInt
  | VStr _ => TyStr
  | VTensor t => TyBuffer (tensor_cls t)
  | VIndex _ => TyLinearIndex
  | VList _ => TyList
  | VTuple _ => TyTuple
  | VSet _ => TySet
  | VDict _ => TyDict
  end.

(** [x is not None] *)
Definition is_not_None (x : pyval) : bool :=
  match x with VNone => false | _ => true end.

(** [l[i]] on a Python list: a negative index counts from the end. *)
Definition py_getitem (l : list pyval) (i : Z) : option pyval :=
  if (0 <=? i)%Z then nth_error l (Z.to_nat i)
  else if (- Z.of_nat (length l) <=? i)%Z
       then nth_error l (Z.to_nat (Z.of_nat (length l) + i))
       else None.

(* ================================================================== *)
(** ** The arena object and its monad *)

Record ToXlaTensorArena : Type := mkArena {
  convert_fn : list pyval -> list pyval -> list pyval;
  _tensors : list pyval;
  _devices : list pyval;
  _converted_tensors : option (list pyval)
}.

(** [ToXlaTensorArena(convert_fn)] *)
Definition new_arena (f : list pyval -> list pyval -> list pyval)
  : ToXlaTensorArena :=
  mkArena f [] [] None.

Inductive result (A : Type) : Type :=
| Ok (a : A)
| Raise (e : exn).
Arguments Ok {A} a.
Arguments Raise {A} e.

(** Computations over a mutable state [S] that may raise: the state reached
    when the exception is raised is kept. *)
Definition SE (S A : Type) : Type := S -> result A * S.

Definition ret {S A} (a : A) : SE S A := fun s => (Ok a, s).

Definition bind {S A B} (m : SE S A) (k : A -> SE S B) : SE S B :=
  fun s => match m s with
           | (Ok a, s') => k a s'
           | (Raise e, s') => (Raise e, s')
           end.

Definition raise {S A} (e : exn) : SE S A := fun s => (Raise e, s).

Definition py_assert {S} (b : bool) : SE S unit :=
  if b then ret tt else raise AssertionError.

Declare Scope py_scope.
Delimit Scope py_scope with py.
Notation "x <- m ;; k" := (bind m (fun x => k))
  (at level 61, m at next level, right associativity) : py_scope.
Notation "m ;; k" := (bind m (fun _ => k))
  (at level 61, right associativity) : py_scope.
Open Scope py_scope.

(** Methods of the arena and functions that are passed the arena. *)
Definition M (A : Type) : Type := SE ToXlaTensorArena A.

(** [ToXlaTensorArena.add] *)
Definition add (tensor : pyval) (device : pyval) : M pyval :=
  fun self =>
    if match _tensors self with
       | t0 :: _ => pytype_eqb (type_ t0) (type_ tensor)
       | [] => true
       end
    then
      let tensors' := _tensors self ++ [tensor] in
      let devices' := if is_not_None device
                      then _devices self ++ [device]
                      else _devices self in
      (Ok (VIndex (Z.of_nat (length tensors') - 1)),
       mkArena (convert_fn self) tensors' devices' (_converted_tensors self))
    else (Raise AssertionError, self).

(** [ToXlaTensorArena.convert] *)
Definition convert : M unit :=
  fun self =>
    match _tensors self with
    | [] => (Ok tt, self)
    | _ :: _ =>
        (Ok tt,
         mkArena (convert_fn self) (_tensors self) (_devices self)
                 (Some (convert_fn self (_tensors self) (_devices self))))
    end.

(** [ToXlaTensorArena.get_converted_tensor] *)
Definition get_converted_tensor (lindex : pyval) : M pyval :=
  fun self =>
    match lindex with
    | VIndex index =>
        match _converted_tensors self with
        | Some converted =>
            if (index <? Z.of_nat (length converted))%Z then
              match py_getitem converted index with
              | Some b => (Ok b, self)
              | None => (Raise IndexError, self)
              end
            else (Raise AssertionError, self)
        | None => (Raise AssertionError, self)
        end
    | _ => (Raise AssertionError, self)
    end.

(* ================================================================== *)
(** ** The structural walker and the rehydrator *)

(** The [for i, input in enumerate(inputs)] loop of [_collect_tensors];
    [rec input device] is the recursive call, made with [devices=None]. *)
Fixpoint collect_loop (rec : pyval -> pyval -> M pyval)
    (devices : option (list pyval)) (rest : list pyval) (i : nat)
    (device : pyval) (tensors : list pyval) {struct rest} : M pyval :=
  match rest with
  | [] => ret (VTuple tensors)
  | input :: rest' =>
      device' <- match devices with
                 | Some ds =>
                     py_assert (i <? length ds)%nat ;;
                     ret (nth i ds VNone)
                 | None => ret device
                 end ;;
      t <- rec input device' ;;
      collect_loop rec devices rest' (S i) device' (tensors ++ [t])
  end.

Fixpoint _collect_tensors (collect_type : pytype) (inputs : pyval)
    (devices : option (list pyval)) (device : pyval) {struct inputs}
  : M pyval :=
  if pytype_eqb (type_ inputs) collect_type then add inputs device
  else
    match inputs with
    | VList l | VTuple l =>
        collect_loop (fun input d => _collect_tensors collect_type input None d)
                     devices l 0%nat device []
    | _ => ret inputs
    end.

(** The [for tensor in tensors] loop of [_replace_tensors]. *)
Fixpoint replace_loop (rec : pyval -> M pyval) (rest : list pyval)
    (new_tensors : list pyval) {struct rest} : M pyval :=
  match rest with
  | [] => ret (VTuple new_tensors)
  | tensor :: rest' =>
      t <- rec tensor ;;
      replace_loop rec rest' (new_tensors ++ [t])
  end.

Fixpoint _replace_tensors (tensors : pyval) {struct tensors} : M pyval :=
  match tensors with
  | VIndex _ => get_converted_tensor tensors
  | VList l | VTuple l => replace_loop _replace_tensors l []
  | _ => ret tensors
  end.

(* ================================================================== *)
(** ** The optimizer-state collector *)

Record OptimizerState : Type := mkOptimizerState {
  tensors : list pyval;
  gradients : list pyval
}.

(** What the collector reads from the optimizer object: the value of
    [optimizer.__getstate__()] and the items of the mapping
    [optimizer.state]. *)
Record Optimizer : Type := mkOptimizer {
  getstate : pyval;
  state : list (pyval * pyval)
}.

(** [isinstance(p, torch.Tensor)] *)
Definition isinstance_torch_Tensor (p : pyval) : bool :=
  match p with
  | VTensor t =>
      match tensor_cls t with
      | TorchTensor | TorchParameter => true
      | XLATensor => false
      end
  | _ => false
  end.

(** [t.data]: a plain tensor over the same storage, without gradient. *)
Definition data (t : tensor) : tensor :=
  Tensor TorchTensor (tensor_id t) None.

(** [optimizer.state.get(p, None)] for a tensor [p]: tensors are hashed and
    compared by identity. *)
Fixpoint state_get (items : list (pyval * pyval)) (p : tensor) : pyval :=
  match items with
  | [] => VNone
  | (VTensor k, v) :: items' =>
      if (tensor_id k =? tensor_id p)%Z then v else state_get items' p
  | _ :: items' => state_get items' p
  end.

(** Truth value of an object in [if pstate:].  The entries of
    [optimizer.state] are mappings; a tensor met there is taken as true. *)
Definition truthy (x : pyval) : bool :=
  match x with
  | VNone => false
  | VInt n => negb (n =? 0)%Z
  | VStr s => negb (String.eqb s EmptyString)
  | VTensor _ => true
  | VIndex _ => true
  | VList l | VTuple l | VSet l => negb (Nat.eqb (length l) 0)
  | VDict items => negb (Nat.eqb (length items) 0)
  end.

(** [for x in p: add(x, state)] *)
Fixpoint for_each (f : pyval -> OptimizerState -> result OptimizerState)
    (p : list pyval) (st : OptimizerState) : result OptimizerState :=
  match p with
  | [] => Ok st
  | x :: p' =>
      match f x st with
      | Ok st' => for_each f p' st'
      | Raise e => Raise e
      end
  end.

(** [for k, v in p.items(): add(k, state); add(v, state)] *)
Fixpoint for_each_item (f : pyval -> OptimizerState -> result OptimizerState)
    (p : list (pyval * pyval)) (st : OptimizerState)
  : result OptimizerState :=
  match p with
  | [] => Ok st
  | (k, v) :: p' =>
      match f k st with
      | Ok st1 =>
          match f v st1 with
          | Ok st2 => for_each_item f p' st2
          | Raise e => Raise e
          end
      | Raise e => Raise e
      end
  end.

(** The local function [add(p, state)] of [_fetch_optimizer_state].  The
    call on [pstate] is not on a part of [p], so the recursion is bounded by
    the interpreter's recursion limit: [depth] frames are left, and a call
    with none left raises [RecursionError]. *)
Fixpoint fetch_add (depth : nat) (optimizer : Optimizer) (p : pyval)
    (st : OptimizerState) {struct depth} : result OptimizerState :=
  match depth with
  | O => Raise RecursionError
  | S depth' =>
      let add := fetch_add depth' optimizer in
      match p with
      | VTensor t =>
          if isinstance_torch_Tensor p then
            let st1 := mkOptimizerState (tensors st ++ [VTensor (data t)])
                                        (gradients st) in
            let st2 := match tensor_grad t with
                       | Some g =>
                           mkOptimizerState (tensors st1)
                             (gradients st1 ++ [VTensor (data g)])
                       | None => st1
                       end in
            let pstate := state_get (state optimizer) t in
            if truthy pstate then add pstate st2 else Ok st2
          else Ok st
      | VDict items => for_each_item add items st
      | VList l | VTuple l | VSet l => for_each add l st
      | _ => Ok st
      end
  end.

Definition _fetch_optimizer_state (recursion_limit : nat)
    (optimizer : Optimizer) : result OptimizerState :=
  fetch_add recursion_limit optimizer (getstate optimizer)
            (mkOptimizerState [] []).

(* ================================================================== *)
(** ** The step synchronizer *)

(** Calls made to the runtime, in the order they are made. *)
Inductive event : Type :=
| EvReplicationDeviceCount
| EvCrossReplicaSum (grads : list pyval) (scale : Q) (groups : list pyval)
| EvOptimizerStep (closure : pyval)
| EvSaveTensorsGraph (save_dir : string) (name : string)
                     (graph_tensors : list pyval)
| EvGetDefaultDevice
| EvStepMarker (device : pyval).

(** The collaborators of [optimizer_step], over an abstract world [W]: each
    may change the world, and those that run foreign code may raise. *)
Record Runtime (W : Type) : Type := mkRuntime {
  recursion_limit : nat;
  xla_replication_device_count : W -> Z;
  xla_cross_replica_sum :
    list pyval -> Q -> list pyval -> W -> result unit * W;
  optimizer_step_method : Optimizer -> pyval -> W -> result pyval * W;
  environ_get : string -> W -> option string;
  save_tensors_graph :
    string -> string -> list pyval -> W -> result unit * W;
  xla_get_default_device : W -> pyval;
  xla_step_marker : pyval -> W -> result unit * W
}.

Section Synchronizer.

Variable W : Type.
Variable rt : Runtime W.

(** The state of a step: the world and the trace of the calls made. *)
Definition X (A : Type) : Type := SE (W * list event) A.

Definition call {A} (ev : event) (h : W -> result A * W) : X A :=
  fun s => let '(r, w') := h (fst s) in (r, (w', snd s ++ [ev])).

Definition lift_result {A} (r : result A) : X A :=
  fun s => (r, s).

(** [os.environ.get(name, None)] *)
Definition environ (name : string) : X (option string) :=
  fun s => (Ok (environ_get rt name (fst s)), s).

(** [_mark_step] *)
Definition _mark_step (st : OptimizerState) : X unit :=
  save_dir <- environ "SAVE_GRAPH_DIR" ;;
  match save_dir with
  | Some dir =>
      if negb (String.eqb dir "") then
        call (EvSaveTensorsGraph dir "optimizer_step"
                                 (gradients st ++ tensors st))
             (save_tensors_graph rt dir "optimizer_step"
                                 (gradients st ++ tensors st))
      else ret tt
  | None => ret tt
  end ;;
  device <- call EvGetDefaultDevice
              (fun w => (Ok (xla_get_default_device rt w), w)) ;;
  call (EvStepMarker device) (xla_step_marker rt device).

(** [optimizer_step]; the scale [1.0 / count] is kept as the exact
    rational [1 / count]. *)
Definition optimizer_step (optimizer : Optimizer) (closure : pyval)
  : X pyval :=
  st <- lift_result (_fetch_optimizer_state (recursion_limit rt) optimizer) ;;
  count <- call EvReplicationDeviceCount
             (fun w => (Ok (xla_replication_device_count rt w), w)) ;;
  (if (1 <? count)%Z then
     call (EvCrossReplicaSum (gradients st) (1 # Z.to_pos count) [])
          (xla_cross_replica_sum rt (gradients st) (1 # Z.to_pos count) [])
   else ret tt) ;;
  loss <- call (EvOptimizerStep closure)
            (optimizer_step_method rt optimizer closure) ;;
  _mark_step st ;;
  ret loss.

End Synchronizer.

(* ================================================================== *)
(** ** Vocabulary of the statements *)

(** The leaves the walker collects from a structure, in collection order: a
    value whose type is the collected type is a leaf, a list or a tuple is
    entered, anything else holds no leaf. *)
Fixpoint leaves_of (collect_type : pytype) (v : pyval) : list pyval :=
  if pytype_eqb (type_ v) collect_type then [v]
  else
    match v with
    | VList l | VTuple l => flat_map (leaves_of collect_type) l
    | _ => []
    end.

(** A structure of lists and tuples whose leaves are buffers of class [c]. *)
Fixpoint buffer_tree (c : bufclass) (v : pyval) : bool :=
  match v with
  | VTensor t => bufclass_eqb (tensor_cls t) c
  | VList l | VTuple l => forallb (buffer_tree c) l
  | _ => false
  end.

(** The value at a structural position: a position is the list of the
    indices taken from the root. *)
Fixpoint subterm (v : pyval) (path : list nat) : option pyval :=
  match path with
  | [] => Some v
  | i :: path' =>
      match v with
      | VList l | VTuple l =>
          match nth_error l i with
          | Some x => subterm x path'
          | None => None
          end
      | _ => None
      end
  end.

(** The number of leaves collected before the position [path] is reached. *)
Fixpoint leaf_rank (collect_type : pytype) (v : pyval) (path : list nat)
  : nat :=
  match path with
  | [] => O
  | i :: path' =>
      match v with
      | VList l | VTuple l =>
          (length (flat_map (leaves_of collect_type) (firstn i l))
           + leaf_rank collect_type (nth i l VNone) path')%nat
      | _ => O
      end
  end.

(** The structure with the leaf collected [k]-th (counting from [n])
    replaced by [f k], and every list or tuple rebuilt as a tuple. *)
Fixpoint relabel (collect_type : pytype) (f : nat -> pyval) (v : pyval)
    (n : nat) {struct v} : pyval :=
  if pytype_eqb (type_ v) collect_type then f n
  else
    match v with
    | VList l | VTuple l =>
        VTuple
          ((fix go (l : list pyval) (n : nat) {struct l} : list pyval :=
              match l with
              | [] => []
              | x :: l' =>
                  relabel collect_type f x n
                  :: go l' (n + length (leaves_of collect_type x))%nat
              end) l n)
    | _ => v
    end.

Fixpoint relabel_list (collect_type : pytype) (f : nat -> pyval)
    (l : list pyval) (n : nat) {struct l} : list pyval :=
  match l with
  | [] => []
  | x :: l' =>
      relabel collect_type f x n
      :: relabel_list collect_type f l'
           (n + length (leaves_of collect_type x))%nat
  end.

(** No handle sits in the structure at a place the walker passes over: the
    rehydrator would take it for a handle of its arena. *)
Fixpoint no_stray_handle (collect_type : pytype) (v : pyval) : bool :=
  if pytype_eqb (type_ v) collect_type then true
  else
    match v with
    | VList l | VTuple l => forallb (no_stray_handle collect_type) l
    | VIndex _ => false
    | _ => true
    end.

(** The arena can take a buffer of type [ty]: it is empty, or its first
    buffer has that type. *)
Definition arena_accepts (ty : pytype) (a : ToXlaTensorArena) : Prop :=
  match _tensors a with
  | [] => True
  | t0 :: _ => pytype_eqb (type_ t0) ty = true
  end.

(** The tags [add] records for a list of tags it is passed. *)
Definition recorded (tags : list pyval) : list pyval :=
  filter is_not_None tags.

(** The arena after the buffers [bs] were added with the tags [tags]. *)
Definition extend (a : ToXlaTensorArena) (bs tags : list pyval)
  : ToXlaTensorArena :=
  mkArena (convert_fn a) (_tensors a ++ bs) (_devices a ++ recorded tags)
          (_converted_tensors a).

(** The leaves under the slots of an outer sequence, each paired with the
    tag of its slot, the first slot being slot [i]; [tag_of i] is the tag
    of slot [i]. *)
Fixpoint tagged_leaves (collect_type : pytype) (tag_of : nat -> pyval)
    (slots : list pyval) (i : nat) : list (pyval * pyval) :=
  match slots with
  | [] => []
  | x :: slots' =>
      map (fun leaf => (leaf, tag_of i)) (leaves_of collect_type x)
      ++ tagged_leaves collect_type tag_of slots' (S i)
  end.

(** The tag the loop of [_collect_tensors] passes down slot [i]. *)
Definition slot_tag (devices : option (list pyval)) (device : pyval)
    (i : nat) : pyval :=
  match devices with
  | Some ds => nth i ds VNone
  | None => device
  end.

(** The handle [add] returns for the buffer collected [k]-th. *)
Definition handle (k : nat) : pyval := VIndex (Z.of_nat k).

(** What one recursive call of the walker does, when the arena takes
    buffers of the collected type. *)
Definition collect_closed_form (ct : pytype) (x : pyval) : Prop :=
  forall device a,
    arena_accepts ct a ->
    _collect_tensors ct x None device a
    = (Ok (relabel ct handle x (length (_tensors a))),
       extend a (leaves_of ct x) (map (fun _ => device) (leaves_of ct x))).

(** What the rehydrator does on the mirror of a structure, when the arena
    answers the handle [k] with [g k]. *)
Definition replace_closed_form (ct : pytype) (x : pyval) : Prop :=
  forall a (g : nat -> pyval) n,
    no_stray_handle ct x = true ->
    (forall k, (n <= k < n + length (leaves_of ct x))%nat ->
               get_converted_tensor (handle k) a = (Ok (g k), a)) ->
    _replace_tensors (relabel ct handle x n) a = (Ok (relabel ct g x n), a).

(** A sequence of [add] calls, each with its buffer and its tag; the
    handles returned are collected. *)
Fixpoint add_all (calls : list (pyval * pyval)) : M (list pyval) :=
  match calls with
  | [] => ret []
  | (b, tag) :: calls' =>
      h <- add b tag ;;
      hs <- add_all calls' ;;
      ret (h :: hs)
  end.

(** The elements of a list or a tuple. *)
Definition sequence_items (v : pyval) : option (list pyval) :=
  match v with
  | VList l | VTuple l => Some l
  | _ => None
  end.

(* ================================================================== *)
(** ** Sample objects *)

Definition sample_t0 : pyval := VTensor (Tensor TorchTensor 10 None).
Definition sample_t1 : pyval := VTensor (Tensor TorchTensor 11 None).
Definition sample_t2 : pyval := VTensor (Tensor TorchTensor 12 None).
Definition sample_x0 : pyval := VTensor (Tensor XLATensor 20 None).

(** A batched conversion that moves every tensor to an XLA buffer. *)
Definition sample_to_xla (bs tags : list pyval) : list pyval :=
  map (fun b => match b with
                | VTensor t => VTensor (Tensor XLATensor (tensor_id t) None)
                | other => other
                end) bs.

(** [[t0, (t1, [t2])]] *)
Definition sample_structure : pyval :=
  VList [sample_t0; VTuple [sample_t1; VList [sample_t2]]].


(** An arena whose conversion has produced the single XLA buffer. *)
Definition sample_converted_arena : ToXlaTensorArena :=
  mkArena sample_to_xla [sample_t0] [VStr ""] (Some [sample_x0]).

(** [{'w': t0}] *)
Definition sample_mapping : pyval := VDict [(VStr "w", sample_t0)].


(* ================================================================== *)
(** ** Vocabulary of the statements on the optimizer step *)

(** The per-parameter state an optimizer with momentum keeps. *)
Definition momentum_state (buf : tensor) : pyval :=
  VDict [(VStr "momentum_buffer", VTensor buf)].

(** The items of [optimizer.state] for parameters paired with their
    momentum buffers. *)
Definition state_items (pms : list (tensor * tensor))
  : list (pyval * pyval) :=
  map (fun pm => (VTensor (fst pm), momentum_state (snd pm))) pms.

(** [[{'params': ps}]] *)
Definition param_groups (ps : list tensor) : pyval :=
  VList [VDict [(VStr "params", VList (map VTensor ps))]].

(** A snapshot that lists the parameters once, in their group. *)
Definition params_snapshot (ps : list tensor) : pyval :=
  VDict [(VStr "param_groups", param_groups ps)].

(** A snapshot that holds the state mapping next to the parameter groups,
    the way [torch.optim.Optimizer.__getstate__] builds it. *)
Definition state_and_params_snapshot (pms : list (tensor * tensor))
  : pyval :=
  VDict [(VStr "state", VDict (state_items pms));
         (VStr "param_groups", param_groups (map fst pms))].

(** The gradient a parameter contributes. *)
Definition gradient_of (p : tensor) : list pyval :=
  match tensor_grad p with
  | Some g => [VTensor (data g)]
  | None => []
  end.

(** A parameter and its momentum buffer as the collector expects them among
    [pms]: the parameter is a torch tensor; the buffer carries no gradient
    and is not itself a key of [optimizer.state]. *)
Definition param_with_momentum (pms : list (tensor * tensor))
    (pm : tensor * tensor) : Prop :=
  isinstance_torch_Tensor (VTensor (fst pm)) = true
  /\ tensor_grad (snd pm) = None
  /\ ~ In (tensor_id (snd pm)) (map (fun qm => tensor_id (fst qm)) pms).

Definition is_cross_replica_sum (ev : event) : bool :=
  match ev with
  | EvCrossReplicaSum _ _ _ => true
  | _ => false
  end.

Definition is_step_marker (ev : event) : bool :=
  match ev with
  | EvStepMarker _ => true
  | _ => false
  end.

Section StepVocabulary.

Variable W : Type.
Variable rt : Runtime W.

(** The dump directory, when one is configured: [SAVE_GRAPH_DIR] is set
    and not empty. *)
Definition debug_dump_dir (w : W) : option string :=
  match environ_get rt "SAVE_GRAPH_DIR" w with
  | Some dir => if negb (String.eqb dir "") then Some dir else None
  | None => None
  end.

Definition sum_event (st : OptimizerState) (count : Z) : event :=
  EvCrossReplicaSum (gradients st) (1 # Z.to_pos count) [].

Definition export_event (dir : string) (st : OptimizerState) : event :=
  EvSaveTensorsGraph dir "optimizer_step" (gradients st ++ tensors st).

(** The calls [optimizer_step] has made when [optimizer.step] is about to
    be called, and the world at that point. *)
Definition calls_before_step (st : OptimizerState) (w : W) : list event :=
  let count := xla_replication_device_count rt w in
  if (1 <? count)%Z
  then [EvReplicationDeviceCount; sum_event st count]
  else [EvReplicationDeviceCount].

Definition world_before_step (st : OptimizerState) (w : W) : W :=
  let count := xla_replication_device_count rt w in
  if (1 <? count)%Z
  then snd (xla_cross_replica_sum rt (gradients st) (1 # Z.to_pos count)
                                  [] w)
  else w.

(** The export call of [_mark_step], if it makes one, and the world after
    it. *)
Definition export_calls (st : OptimizerState) (w : W) : list event :=
  match debug_dump_dir w with
  | Some dir => [export_event dir st]
  | None => []
  end.

Definition world_after_export (st : OptimizerState) (w : W) : W :=
  match debug_dump_dir w with
  | Some dir =>
      snd (save_tensors_graph rt dir "optimizer_step"
                              (gradients st ++ tensors st) w)
  | None => w
  end.

End StepVocabulary.

(* ================================================================== *)
(** ** Sample optimizers and runtimes *)

Definition sample_g0 : tensor := Tensor TorchTensor 101 None.
Definition sample_g1 : tensor := Tensor TorchTensor 102 None.
Definition sample_p0 : tensor := Tensor TorchParameter 1 (Some sample_g0).
Definition sample_p1 : tensor := Tensor TorchParameter 2 (Some sample_g1).
Definition sample_m0 : tensor := Tensor TorchTensor 201 None.
Definition sample_m1 : tensor := Tensor TorchTensor 202 None.
Definition sample_loss : pyval := VTensor (Tensor TorchTensor 300 None).

Definition sample_pms : list (tensor * tensor) :=
  [(sample_p0, sample_m0); (sample_p1, sample_m1)].

(** An optimizer whose snapshot lists the parameters once. *)
Definition sample_optimizer : Optimizer :=
  mkOptimizer (params_snapshot [sample_p0; sample_p1])
              (state_items sample_pms).

(** An optimizer whose snapshot also holds its state mapping. *)
Definition sample_torch_optimizer : Optimizer :=
  mkOptimizer (state_and_params_snapshot sample_pms)
              (state_items sample_pms).

(** A runtime over a trivial world: [replicas] devices, the dump directory
    [dump_dir], and an export that ends as [export_result]. *)
Definition sample_runtime (replicas : Z) (dump_dir : option string)
    (export_result : result unit) : Runtime unit :=
  mkRuntime 1000
    (fun _ => replicas)
    (fun _ _ _ w => (Ok tt, w))
    (fun _ _ w => (Ok sample_loss, w))
    (fun name _ => if String.eqb name "SAVE_GRAPH_DIR" then dump_dir else None)
    (fun _ _ _ w => (export_result, w))
    (fun _ => VStr "xla:0")
    (fun _ w => (Ok tt, w)).

(* ================================================================== *)
(** ** Vocabulary of further statements on the arena *)

(** A handle sits at a place the rehydrator reaches. *)
Fixpoint has_handle (v : pyval) : bool :=
  match v with
  | VIndex _ => true
  | VList l | VTuple l => existsb has_handle l
  | _ => false
  end.

(** The structure with every list and tuple, at every depth, rebuilt as a
    tuple. *)
Fixpoint as_tuples (v : pyval) : pyval :=
  match v with
  | VList l | VTuple l => VTuple (map as_tuples l)
  | _ => v
  end.

(* ================================================================== *)
(** ** Vocabulary of further statements on the collector *)

(** A tensor as [.data] returns it. *)
Definition is_data_view (v : pyval) : Prop :=
  exists t, v = VTensor (data t).

(** [st'] is [st] with tensors and gradients appended, the gradients no
    more than the tensors, all of them [.data] views. *)
Definition grows (st st' : OptimizerState) : Prop :=
  exists ts gs,
    tensors st' = tensors st ++ ts
    /\ gradients st' = gradients st ++ gs
    /\ (length gs <= length ts)%nat
    /\ Forall is_data_view ts
    /\ Forall is_data_view gs.

(** The snapshot of an optimizer that has not stepped yet: the state
    mapping is empty. *)
Definition fresh_snapshot (ps : list tensor) : pyval :=
  VDict [(VStr "state", VDict []);
         (VStr "param_groups", param_groups ps)].

(** A runtime over a trivial world without dump directory, whose sum,
    [optimizer.step] and step marker end as given. *)
Definition sample_runtime_ending (replicas : Z) (sum_result : result unit)
    (step_result : result pyval) (marker_result : result unit)
  : Runtime unit :=
  mkRuntime 1000
    (fun _ => replicas)
    (fun _ _ _ w => (sum_result, w))
    (fun _ _ w => (step_result, w))
    (fun _ _ => None)
    (fun _ _ _ w => (Ok tt, w))
    (fun _ => VStr "xla:0")
    (fun _ w => (marker_result, w)).

(** What the collector returns for [sample_optimizer]. *)
Definition sample_state : OptimizerState :=
  mkOptimizerState
    [VTensor (data sample_p0); VTensor (data sample_m0);
     VTensor (data sample_p1); VTensor (data sample_m1)]
    [VTensor (data sample_g0); VTensor (data sample_g1)].

(* ================================================================== *)
(** ** Device discovery *)

(** [str(n)] for an integer. *)
Definition format_int (n : Z) : string :=
  NilZero.string_of_int (Z.to_int n).

(** ['xla:{}'.format(n)] *)
Definition format_xla (n : Z) : string :=
  String.append "xla:" (format_int n).

(** The pattern [kind + r':\d+$']. *)
Definition kind_pattern (kind : string) : string :=
  String.append kind ":\d+$".

Section Devices.

(** [re_match pattern s] tells whether [re.match(pattern, s)] finds a
    match, for the patterns that compile; [_XLA_DEVICES] is the module's
    list of device names. *)
Variable re_match : string -> string -> bool.
Variable _XLA_DEVICES : list string.

(** The loop [for i, device in enumerate(_XLA_DEVICES)] of
    [get_xla_supported_devices]. *)
Fixpoint kind_devices_loop (kind : string) (devices : list string)
    (i : nat) (kind_devices : list string) : list string :=
  match devices with
  | [] => kind_devices
  | device :: rest =>
      kind_devices_loop kind rest (S i)
        (if re_match (kind_pattern kind) device
         then kind_devices ++ [format_xla (Z.of_nat i)]
         else kind_devices)
  end.

(** The loop [for kind in devkind]; falling out of it returns [None]. *)
Fixpoint devkind_loop (devkind : list string) : option (list string) :=
  match devkind with
  | [] => None
  | kind :: rest =>
      match kind_devices_loop kind _XLA_DEVICES 0 [] with
      | [] => devkind_loop rest
      | name :: names => Some (name :: names)
      end
  end.

(** [get_xla_supported_devices]; [devkind or [...]] replaces [None] and
    the empty list alike. *)
Definition get_xla_supported_devices (devkind : option (list string))
  : option (list string) :=
  devkind_loop
    match devkind with
    | Some (kind :: rest) => kind :: rest
    | _ => ["TPU"; "GPU"; "CPU"]%string
    end.


(** The indices of the devices whose name matches the pattern of a kind,
    in ascending order. *)
Definition matching_indices (kind : string) : list nat :=
  filter (fun j => re_match (kind_pattern kind)
                            (nth j _XLA_DEVICES EmptyString))
         (seq 0 (length _XLA_DEVICES)).

End Devices.

(** A matcher for the patterns of kinds written without metacharacters:
    the name is the kind, a colon and one or more decimal digits, up to the
    end of the string or to a newline that ends it. *)
Definition is_digit (c : Ascii.ascii) : bool :=
  (48 <=? Ascii.nat_of_ascii c)%nat && (Ascii.nat_of_ascii c <=? 57)%nat.

Fixpoint digits_to_end (s : string) (seen : bool) : bool :=
  match s with
  | EmptyString => seen
  | String c rest =>
      if is_digit c then digits_to_end rest true
      else seen && Ascii.eqb c (Ascii.ascii_of_nat 10)
           && String.eqb rest EmptyString
  end.

Definition sample_re_match (pattern device : string) : bool :=
  let klen := (String.length pattern - 5)%nat in
  String.eqb (substring klen 5 pattern) ":\d+$"
  && String.prefix (String.append (substring 0 klen pattern) ":") device
  && digits_to_end (substring (klen + 1)
                              (String.length device - (klen + 1)) device)
                   false.

Definition sample_devices : list string :=
  ["CPU:0"; "TPU:0"; "TPU:1"; "GPU:0"; "TPU:x"]%string.

(* ================================================================== *)
(** ** Basic facts *)

(** Induction on the nesting of lists and tuples. *)
Lemma pyval_seq_ind (P : pyval -> Prop)
    (Hseq : forall v l, sequence_items v = Some l -> Forall P l -> P v)
    (Hatom : forall v, sequence_items v = None -> P v) :
  forall v, P v.
Proof.
  fix IH 1. intros v.
  destruct v; try (apply Hatom; reflexivity).
  - apply Hseq with l; [reflexivity|].
    induction l as [|x l IHl]; constructor; [apply IH | exact IHl].
  - apply Hseq with l; [reflexivity|].
    induction l as [|x l IHl]; constructor; [apply IH | exact IHl].
Qed.

Lemma bufclass_eqb_eq (a b : bufclass) : bufclass_eqb a b = true <-> a = b.
Proof. destruct a, b; simpl; split; intros H; congruence. Qed.

Lemma pytype_eqb_eq (a b : pytype) : pytype_eqb a b = true <-> a = b.
Proof.
  destruct a, b; simpl; split; intros H; try congruence.
  - f_equal. now apply bufclass_eqb_eq.
  - apply bufclass_eqb_eq. congruence.
Qed.

Lemma pytype_eqb_refl (a : pytype) : pytype_eqb a a = true.
Proof. now apply pytype_eqb_eq. Qed.

Lemma bind_ok {S A B} (m : SE S A) (k : A -> SE S B) s a s' :
  m s = (Ok a, s') -> bind m k s = k a s'.
Proof. unfold bind. now intros ->. Qed.

Lemma recorded_app (t1 t2 : list pyval) :
  recorded (t1 ++ t2) = recorded t1 ++ recorded t2.
Proof. apply filter_app. Qed.

Lemma recorded_const (A : Type) (tag : pyval) (l : list A) :
  is_not_None tag = true ->
  recorded (map (fun _ => tag) l) = map (fun _ => tag) l.
Proof.
  intros Ht. unfold recorded.
  induction l as [|z l IHl]; simpl; [reflexivity|]. now rewrite Ht, IHl.
Qed.

Lemma convert_converted (a : ToXlaTensorArena) :
  _tensors a <> [] ->
  _converted_tensors (snd (convert a))
  = Some (convert_fn a (_tensors a) (_devices a)).
Proof.
  unfold convert. destruct (_tensors a); [congruence | reflexivity].
Qed.

Lemma extend_nil (a : ToXlaTensorArena) : extend a [] [] = a.
Proof. destruct a. unfold extend. simpl. now rewrite !app_nil_r. Qed.

Lemma extend_extend (a : ToXlaTensorArena) (b1 t1 b2 t2 : list pyval) :
  extend (extend a b1 t1) b2 t2 = extend a (b1 ++ b2) (t1 ++ t2).
Proof.
  unfold extend. simpl. now rewrite recorded_app, !app_assoc.
Qed.

Lemma arena_accepts_extend (ct : pytype) (a : ToXlaTensorArena) bs tags :
  arena_accepts ct a ->
  Forall (fun x => pytype_eqb (type_ x) ct = true) bs ->
  arena_accepts ct (extend a bs tags).
Proof.
  unfold arena_accepts, extend. simpl. intros Ha Hbs.
  destruct (_tensors a) as [|t0 ts]; simpl.
  - destruct Hbs; [exact I | assumption].
  - exact Ha.
Qed.

(** [add] on an arena that takes the buffer. *)
Lemma add_accepted (b tag : pyval) (a : ToXlaTensorArena) :
  arena_accepts (type_ b) a ->
  add b tag a = (Ok (handle (length (_tensors a))), extend a [b] [tag]).
Proof.
  destruct a as [f ts ds cv].
  unfold arena_accepts, add, extend, recorded, handle.
  simpl. intros H.
  assert (E : (Z.of_nat (length (ts ++ [b])) - 1 = Z.of_nat (length ts))%Z).
  { rewrite length_app. simpl. lia. }
  assert (D : (if is_not_None tag then ds ++ [tag] else ds)
              = ds ++ (if is_not_None tag then [tag] else [])).
  { destruct (is_not_None tag); [reflexivity | now rewrite app_nil_r]. }
  rewrite <- D.
  destruct ts as [|t0 ts'].
  - reflexivity.
  - rewrite H, E. reflexivity.
Qed.

(** [add] on an arena whose first buffer is of another type. *)
Lemma add_rejected (b tag : pyval) (a : ToXlaTensorArena) t0 ts :
  _tensors a = t0 :: ts ->
  pytype_eqb (type_ t0) (type_ b) = false ->
  add b tag a = (Raise AssertionError, a).
Proof. unfold add. intros -> ->. reflexivity. Qed.

Lemma relabel_sequence (ct : pytype) (f : nat -> pyval) v l n :
  sequence_items v = Some l ->
  pytype_eqb (type_ v) ct = false ->
  relabel ct f v n = VTuple (relabel_list ct f l n).
Proof.
  intros Hl Hty.
  assert (G : forall l n,
    (fix go (l : list pyval) (n : nat) {struct l} : list pyval :=
       match l with
       | [] => []
       | x :: l' =>
           relabel ct f x n :: go l' (n + length (leaves_of ct x))%nat
       end) l n = relabel_list ct f l n).
  { clear. induction l as [|x l IHl]; intros n; simpl;
      [reflexivity | now rewrite IHl]. }
  destruct v; try discriminate; injection Hl as ->;
    simpl in *; rewrite Hty; now rewrite G.
Qed.

Lemma relabel_atom (ct : pytype) (f : nat -> pyval) v n :
  sequence_items v = None ->
  pytype_eqb (type_ v) ct = false ->
  relabel ct f v n = v.
Proof.
  intros Hl Hty. destruct v; try discriminate; simpl in *; now rewrite Hty.
Qed.

Lemma relabel_leaf (ct : pytype) (f : nat -> pyval) v n :
  pytype_eqb (type_ v) ct = true -> relabel ct f v n = f n.
Proof. intros Hty. destruct v; simpl in *; now rewrite Hty. Qed.

Lemma leaves_of_sequence (ct : pytype) v l :
  sequence_items v = Some l ->
  pytype_eqb (type_ v) ct = false ->
  leaves_of ct v = flat_map (leaves_of ct) l.
Proof.
  intros Hl Hty. destruct v; try discriminate; injection Hl as ->;
    simpl in *; now rewrite Hty.
Qed.

Lemma leaves_of_atom (ct : pytype) v :
  sequence_items v = None ->
  pytype_eqb (type_ v) ct = false ->
  leaves_of ct v = [].
Proof.
  intros Hl Hty. destruct v; try discriminate; simpl in *; now rewrite Hty.
Qed.

Lemma leaves_of_leaf (ct : pytype) v :
  pytype_eqb (type_ v) ct = true -> leaves_of ct v = [v].
Proof. intros Hty. destruct v; simpl in *; now rewrite Hty. Qed.

Lemma leaves_of_type (ct : pytype) :
  forall v, Forall (fun x => pytype_eqb (type_ x) ct = true) (leaves_of ct v).
Proof.
  induction v as [v l Hl IH | v Hv] using pyval_seq_ind;
    destruct (pytype_eqb (type_ v) ct) eqn:E.
  - rewrite leaves_of_leaf by exact E. now constructor.
  - rewrite leaves_of_sequence with (l := l) by assumption.
    clear Hl. induction IH as [|x l' Hx _ IHl]; simpl;
      [ apply Forall_nil | apply Forall_app; split; assumption ].
  - rewrite leaves_of_leaf by exact E. now constructor.
  - rewrite leaves_of_atom by assumption. constructor.
Qed.

Lemma collect_leaf ct v devices device :
  pytype_eqb (type_ v) ct = true ->
  _collect_tensors ct v devices device = add v device.
Proof. intros Hty. destruct v; simpl in *; now rewrite Hty. Qed.

Lemma collect_sequence ct v l devices device :
  sequence_items v = Some l ->
  pytype_eqb (type_ v) ct = false ->
  _collect_tensors ct v devices device
  = collect_loop (fun input d => _collect_tensors ct input None d)
                 devices l 0%nat device [].
Proof.
  intros Hl Hty. destruct v; try discriminate; injection Hl as ->;
    simpl in *; now rewrite Hty.
Qed.

Lemma collect_atom ct v devices device :
  sequence_items v = None ->
  pytype_eqb (type_ v) ct = false ->
  _collect_tensors ct v devices device = ret v.
Proof.
  intros Hl Hty. destruct v; try discriminate; simpl in *; now rewrite Hty.
Qed.

(* ================================================================== *)
(** ** The walker in closed form *)

Lemma tagged_leaves_fst ct tag_of l :
  forall i, map fst (tagged_leaves ct tag_of l i) = flat_map (leaves_of ct) l.
Proof.
  induction l as [|x l IHl]; intros i; simpl; [reflexivity|].
  rewrite map_app, map_map, IHl. simpl. now rewrite map_id.
Qed.

Lemma tagged_leaves_const ct device l :
  forall i,
    map snd (tagged_leaves ct (fun _ => device) l i)
    = map (fun _ => device) (flat_map (leaves_of ct) l).
Proof.
  induction l as [|x l IHl]; intros i; simpl; [reflexivity|].
  now rewrite !map_app, map_map, IHl.
Qed.

Lemma extend_tensors_length a bs tags :
  length (_tensors (extend a bs tags))
  = (length (_tensors a) + length bs)%nat.
Proof. simpl. apply length_app. Qed.

(** The loop over the slots that the device list covers. *)
Lemma collect_loop_covered ct devices l :
  Forall (collect_closed_form ct) l ->
  forall i device acc a,
    arena_accepts ct a ->
    match devices with
    | Some ds => (i + length l <= length ds)%nat
    | None => True
    end ->
    collect_loop (fun input d => _collect_tensors ct input None d)
                 devices l i device acc a
    = (Ok (VTuple (acc ++ relabel_list ct handle l (length (_tensors a)))),
       extend a
         (map fst (tagged_leaves ct (slot_tag devices device) l i))
         (map snd (tagged_leaves ct (slot_tag devices device) l i))).
Proof.
  induction 1 as [|x l Hx Hl IHl]; intros i device acc a Ha Hcov; simpl.
  - unfold ret. now rewrite app_nil_r, extend_nil.
  - assert (Hdev :
      (match devices with
       | Some ds => py_assert (i <? length ds)%nat ;; ret (nth i ds VNone)
       | None => ret device
       end) a = (Ok (slot_tag devices device i), a)).
    { destruct devices as [ds|]; simpl; [|reflexivity].
      assert (Hi : (i <? length ds)%nat = true)
        by (apply Nat.ltb_lt; simpl in Hcov; lia).
      unfold bind, py_assert. now rewrite Hi. }
    rewrite (bind_ok _ _ _ Hdev).
    rewrite (bind_ok _ _ _ (Hx (slot_tag devices device i) a Ha)).
    rewrite IHl.
    + rewrite extend_extend, extend_tensors_length.
      rewrite <- app_assoc. simpl.
      rewrite !map_app, !map_map. simpl. rewrite map_id.
      assert (Hs : slot_tag devices (slot_tag devices device i)
                   = slot_tag devices device)
        by (destruct devices; reflexivity).
      now rewrite Hs.
    + apply arena_accepts_extend; [exact Ha | apply leaves_of_type].
    + destruct devices; [simpl in *; lia | exact I].
Qed.

(** The walker without a device list. *)
Lemma collect_spec ct : forall x, collect_closed_form ct x.
Proof.
  induction x as [v l Hl IH | v Hv] using pyval_seq_ind;
    intros device a Ha; destruct (pytype_eqb (type_ v) ct) eqn:E.
  - rewrite collect_leaf, relabel_leaf, leaves_of_leaf by exact E.
    apply add_accepted. apply pytype_eqb_eq in E. now rewrite E.
  - rewrite collect_sequence with (l := l) by assumption.
    rewrite (collect_loop_covered None IH) by (exact Ha || exact I).
    rewrite relabel_sequence with (l := l) by assumption.
    rewrite leaves_of_sequence with (l := l) by assumption.
    unfold slot_tag. simpl.
    now rewrite tagged_leaves_fst, tagged_leaves_const.
  - rewrite collect_leaf, relabel_leaf, leaves_of_leaf by exact E.
    apply add_accepted. apply pytype_eqb_eq in E. now rewrite E.
  - rewrite collect_atom, relabel_atom, leaves_of_atom by assumption.
    unfold ret. simpl. now rewrite extend_nil.
Qed.

(** The loop stops at the first slot the device list does not cover. *)
Lemma collect_loop_uncovered ct ds l :
  forall i device acc a,
    arena_accepts ct a ->
    (i <= length ds < i + length l)%nat ->
    collect_loop (fun input d => _collect_tensors ct input None d)
                 (Some ds) l i device acc a
    = (Raise AssertionError,
       extend a
         (map fst (tagged_leaves ct (fun j => nth j ds VNone)
                                 (firstn (length ds - i) l) i))
         (map snd (tagged_leaves ct (fun j => nth j ds VNone)
                                 (firstn (length ds - i) l) i))).
Proof.
  induction l as [|x l IHl]; intros i device acc a Ha Hi; simpl in Hi.
  - lia.
  - destruct (Nat.eq_dec i (length ds)) as [->|Hne].
    + rewrite Nat.sub_diag. simpl. rewrite extend_nil.
      unfold bind, py_assert. now rewrite Nat.ltb_irrefl.
    + assert (Hlt : (i <? length ds)%nat = true) by (apply Nat.ltb_lt; lia).
      replace (length ds - i)%nat with (S (length ds - S i)) by lia.
      simpl.
      assert (Hdev : (py_assert (i <? length ds)%nat ;; ret (nth i ds VNone)) a
                     = (Ok (nth i ds VNone), a)).
      { unfold bind, py_assert. now rewrite Hlt. }
      rewrite (bind_ok _ _ _ Hdev).
      rewrite (bind_ok _ _ _ (collect_spec ct x (nth i ds VNone) a Ha)).
      rewrite IHl.
      * rewrite extend_extend.
        rewrite !map_app, !map_map. simpl. now rewrite map_id.
      * apply arena_accepts_extend; [exact Ha | apply leaves_of_type].
      * lia.
Qed.

(* ================================================================== *)
(** ** The rehydrator in closed form *)

Lemma py_getitem_nat (l : list pyval) (k : nat) :
  py_getitem l (Z.of_nat k) = nth_error l k.
Proof.
  unfold py_getitem.
  assert (E : (0 <=? Z.of_nat k)%Z = true) by (apply Z.leb_le; lia).
  now rewrite E, Nat2Z.id.
Qed.

Lemma get_converted_handle (a : ToXlaTensorArena) conv (k : nat) :
  _converted_tensors a = Some conv ->
  (k < length conv)%nat ->
  get_converted_tensor (handle k) a = (Ok (nth k conv VNone), a).
Proof.
  intros Hc Hk. unfold get_converted_tensor, handle. rewrite Hc.
  assert (E : (Z.of_nat k <? Z.of_nat (length conv))%Z = true)
    by (apply Z.ltb_lt; lia).
  rewrite E, py_getitem_nat.
  now rewrite (nth_error_nth' conv VNone Hk).
Qed.

Lemma replace_sequence v l :
  sequence_items v = Some l ->
  _replace_tensors v = replace_loop _replace_tensors l [].
Proof. destruct v; try discriminate; now intros [= ->]. Qed.

Lemma no_stray_handle_sequence ct v l :
  sequence_items v = Some l ->
  pytype_eqb (type_ v) ct = false ->
  no_stray_handle ct v = forallb (no_stray_handle ct) l.
Proof.
  intros Hl Hty. destruct v; try discriminate; injection Hl as ->;
    simpl in *; now rewrite Hty.
Qed.

Lemma length_relabel_list ct f l :
  forall n, length (relabel_list ct f l n) = length l.
Proof. induction l; intros n; simpl; [reflexivity | now rewrite IHl]. Qed.

Lemma replace_loop_spec ct l :
  Forall (replace_closed_form ct) l ->
  forall a (g : nat -> pyval) n acc,
    forallb (no_stray_handle ct) l = true ->
    (forall k, (n <= k < n + length (flat_map (leaves_of ct) l))%nat ->
               get_converted_tensor (handle k) a = (Ok (g k), a)) ->
    replace_loop _replace_tensors (relabel_list ct handle l n) acc a
    = (Ok (VTuple (acc ++ relabel_list ct g l n)), a).
Proof.
  induction 1 as [|x l Hx Hl IHl]; intros a g n acc Hns Hget; simpl.
  - unfold ret. now rewrite app_nil_r.
  - simpl in Hns, Hget. apply andb_prop in Hns as [Hns1 Hns2].
    rewrite (bind_ok _ _ _ (Hx a g n Hns1
               ltac:(intros k Hk; apply Hget; rewrite length_app; lia))).
    rewrite (IHl a g)
      by (assumption || (intros k Hk; apply Hget; rewrite length_app; lia)).
    now rewrite <- app_assoc.
Qed.

Lemma replace_spec ct : forall x, replace_closed_form ct x.
Proof.
  induction x as [v l Hl IH | v Hv] using pyval_seq_ind;
    intros a g n Hns Hget; destruct (pytype_eqb (type_ v) ct) eqn:E.
  - rewrite !relabel_leaf by exact E.
    rewrite leaves_of_leaf in Hget by exact E. simpl in Hget.
    apply Hget. lia.
  - rewrite !relabel_sequence with (l := l) by assumption.
    rewrite leaves_of_sequence with (l := l) in Hget by assumption.
    rewrite no_stray_handle_sequence with (l := l) in Hns by assumption.
    simpl. now rewrite (@replace_loop_spec ct l IH a g n [] Hns Hget).
  - rewrite !relabel_leaf by exact E.
    rewrite leaves_of_leaf in Hget by exact E. simpl in Hget.
    apply Hget. lia.
  - rewrite !relabel_atom by assumption.
    destruct v; try discriminate; try reflexivity.
    simpl in Hns, E. now rewrite E in Hns.
Qed.

Lemma buffer_tree_no_stray c :
  forall v, buffer_tree c v = true -> no_stray_handle (TyBuffer c) v = true.
Proof.
  induction v as [v l Hl IH | v Hv] using pyval_seq_ind; intros Hb.
  - rewrite no_stray_handle_sequence with (l := l);
      [| assumption | destruct v; try discriminate; reflexivity ].
    assert (Hb' : forallb (buffer_tree c) l = true)
      by (destruct v; try discriminate; now injection Hl as ->).
    clear Hl Hb. induction IH as [|x l Hx _ IHl]; simpl in *;
      [reflexivity|].
    apply andb_prop in Hb' as [H1 H2]. now rewrite Hx, IHl.
  - destruct v; try discriminate. simpl in *. now rewrite Hb.
Qed.

(* ================================================================== *)
(** ** Structural positions *)

Lemma nth_error_relabel_list ct f :
  forall l i n y,
    nth_error l i = Some y ->
    nth_error (relabel_list ct f l n) i
    = Some (relabel ct f y
              (n + length (flat_map (leaves_of ct) (firstn i l)))%nat).
Proof.
  induction l as [|x l IHl]; intros [|i] n y Hy; simpl in *;
    try discriminate.
  - injection Hy as ->. now rewrite Nat.add_0_r.
  - rewrite (IHl i _ y Hy), length_app. now rewrite Nat.add_assoc.
Qed.

Lemma nth_error_flat_map_leaves ct :
  forall l i y k x,
    nth_error l i = Some y ->
    nth_error (leaves_of ct y) k = Some x ->
    nth_error (flat_map (leaves_of ct) l)
              (length (flat_map (leaves_of ct) (firstn i l)) + k)
    = Some x.
Proof.
  induction l as [|z l IHl]; intros [|i] y k x Hy Hx; simpl in *;
    try discriminate.
  - injection Hy as ->. rewrite nth_error_app1; [exact Hx|].
    apply nth_error_Some. congruence.
  - rewrite length_app, <- Nat.add_assoc.
    rewrite nth_error_app2 by lia.
    replace (length (leaves_of ct z)
             + (length (flat_map (leaves_of ct) (firstn i l)) + k)
             - length (leaves_of ct z))%nat
      with (length (flat_map (leaves_of ct) (firstn i l)) + k)%nat by lia.
    now apply IHl with y.
Qed.

(** The value the relabelled structure holds at each position of the
    structure, when buffers of class [c] are collected. *)
Lemma subterm_relabel c (f : nat -> pyval) :
  forall path v n x,
    subterm v path = Some x ->
    (pytype_eqb (type_ x) (TyBuffer c) = true ->
       subterm (relabel (TyBuffer c) f v n) path
       = Some (f (n + leaf_rank (TyBuffer c) v path)%nat)
       /\ nth_error (leaves_of (TyBuffer c) v) (leaf_rank (TyBuffer c) v path)
          = Some x)
    /\ (forall l, sequence_items x = Some l ->
          exists l', subterm (relabel (TyBuffer c) f v n) path
                     = Some (VTuple l')
                     /\ length l' = length l).
Proof.
  induction path as [|i path IH]; intros v n x Hx.
  - simpl in Hx. injection Hx as ->. split.
    + intros E. simpl. rewrite relabel_leaf, leaves_of_leaf by exact E.
      now rewrite Nat.add_0_r.
    + intros l Hl. exists (relabel_list (TyBuffer c) f l n). simpl.
      rewrite relabel_sequence with (l := l);
        [| exact Hl | destruct x; try discriminate; reflexivity ].
      now rewrite length_relabel_list.
  - assert (Hv : exists l y, sequence_items v = Some l
                             /\ nth_error l i = Some y
                             /\ subterm y path = Some x).
    { destruct v; try discriminate; simpl in Hx;
        destruct (nth_error l i) as [y|] eqn:Ey; try discriminate;
        exists l, y; auto. }
    destruct Hv as (l & y & Hl & Hy & Hsub).
    assert (Hty : pytype_eqb (type_ v) (TyBuffer c) = false)
      by (destruct v; try discriminate; reflexivity).
    assert (Hrank : leaf_rank (TyBuffer c) v (i :: path)
                    = (length (flat_map (leaves_of (TyBuffer c)) (firstn i l))
                       + leaf_rank (TyBuffer c) y path)%nat).
    { destruct v; try discriminate; injection Hl as ->; simpl;
        now rewrite (nth_error_nth _ _ VNone Hy). }
    assert (Hrel : subterm (relabel (TyBuffer c) f v n) (i :: path)
                   = subterm (relabel (TyBuffer c) f y
                                (n + length (flat_map (leaves_of (TyBuffer c))
                                                      (firstn i l)))%nat)
                             path).
    { rewrite relabel_sequence with (l := l) by assumption. simpl.
      now rewrite (nth_error_relabel_list _ f _ _ n Hy). }
    rewrite Hrel, Hrank.
    destruct (IH y (n + length (flat_map (leaves_of (TyBuffer c))
                                         (firstn i l)))%nat x Hsub)
      as [Hleaf Hseq].
    split.
    + intros E. destruct (Hleaf E) as [H1 H2]. split.
      * now rewrite H1, Nat.add_assoc.
      * rewrite leaves_of_sequence with (l := l) by assumption.
        now apply nth_error_flat_map_leaves with y.
    + exact Hseq.
Qed.

Lemma subterm_buffer_tree c :
  forall path v x,
    buffer_tree c v = true -> subterm v path = Some x ->
    buffer_tree c x = true.
Proof.
  induction path as [|i path IH]; intros v x Hb Hx; simpl in Hx.
  - now injection Hx as <-.
  - destruct v; try discriminate; simpl in Hb;
      destruct (nth_error l i) as [y|] eqn:Ey; try discriminate;
      apply (IH y x); [| exact Hx | | exact Hx];
      apply nth_error_In in Ey;
      rewrite forallb_forall in Hb; now apply Hb.
Qed.

(* ================================================================== *)
(** ** The round trip through the arena *)

(** C1.  Round-trip identity.  Let [S] be a structure of lists and tuples
    whose leaves are buffers of the collected class, and let the arena take
    such buffers and [convert_fn] return as many buffers as it is given.
    Then collecting [S], converting and rehydrating the mirrored structure
    all succeed; the arena holds the collected leaves in collection order;
    and the rehydrated structure [r] has, at every position where [S] has a
    list or a tuple, a tuple of the same length, and at every position where
    [S] has a leaf, the converted buffer number [k], where [k] is the
    position of that very leaf in the list of collected buffers; [r] is
    [S] with every leaf so replaced and every sequence rebuilt as a
    tuple, and nothing else. *)
Theorem round_trip_identity (c : bufclass) (S : pyval)
    (a0 : ToXlaTensorArena) :
  let ct := TyBuffer c in
  let n0 := length (_tensors a0) in
  let collected := _tensors a0 ++ leaves_of ct S in
  let tags := _devices a0 ++ map (fun _ => VStr "") (leaves_of ct S) in
  let converted := convert_fn a0 collected tags in
  buffer_tree c S = true ->
  arena_accepts ct a0 ->
  length converted = length collected ->
  exists mirrored a1 a2 r,
    _collect_tensors ct S None (VStr "") a0 = (Ok mirrored, a1)
    /\ _tensors a1 = collected
    /\ _devices a1 = tags
    /\ convert a1 = (Ok tt, a2)
    /\ _replace_tensors mirrored a2 = (Ok r, a2)
    /\ r = relabel ct (fun k => nth k converted VNone) S n0
    /\ forall path x,
         subterm S path = Some x ->
         match sequence_items x with
         | Some l =>
             exists l', subterm r path = Some (VTuple l')
                        /\ length l' = length l
         | None =>
             let k := (n0 + leaf_rank ct S path)%nat in
             nth_error collected k = Some x
             /\ exists y, nth_error converted k = Some y
                          /\ subterm r path = Some y
         end.
Proof.
  intros ct n0 collected tags converted Hb Ha Hlen.
  pose (g := fun k => nth k converted VNone).
  exists (relabel ct handle S n0).
  exists (extend a0 (leaves_of ct S) (map (fun _ => VStr "") (leaves_of ct S))).
  set (a1 := extend a0 (leaves_of ct S)
                    (map (fun _ => VStr "") (leaves_of ct S))).
  assert (Hrec : _devices a1 = tags).
  { unfold a1, tags. simpl. now rewrite recorded_const. }
  exists (snd (convert a1)), (relabel ct g S n0).
  assert (Hconv : convert a1 = (Ok tt, snd (convert a1)))
    by (unfold convert; destruct (_tensors a1); reflexivity).
  assert (Hget : forall k,
            (n0 <= k < n0 + length (leaves_of ct S))%nat ->
            get_converted_tensor (handle k) (snd (convert a1))
            = (Ok (g k), snd (convert a1))).
  { intros k Hk. apply get_converted_handle.
    - rewrite convert_converted, Hrec; [reflexivity|].
      intros Et. apply (f_equal (@length pyval)) in Et. unfold a1 in Et.
      rewrite extend_tensors_length in Et. simpl in Et. fold n0 in Et. lia.
    - fold converted. rewrite Hlen. unfold collected.
      rewrite length_app. fold n0. lia. }
  repeat split.
  - apply collect_spec. exact Ha.
  - exact Hrec.
  - exact Hconv.
  - apply replace_spec; [now apply buffer_tree_no_stray | exact Hget].
  - intros path x Hx.
    destruct (subterm_relabel c g path S n0 Hx) as [Hleaf Hseq].
    destruct (sequence_items x) as [l|] eqn:Hl.
    + now apply Hseq.
    + assert (E : pytype_eqb (type_ x) ct = true).
      { pose proof (subterm_buffer_tree c path S Hb Hx) as Hbx.
        destruct x; try discriminate. exact Hbx. }
      destruct (Hleaf E) as [H1 H2]. fold ct in H1, H2.
      assert (Hk : (leaf_rank ct S path < length (leaves_of ct S))%nat)
        by (apply nth_error_Some; congruence).
      cbv zeta. split.
      * unfold collected. rewrite nth_error_app2 by (fold n0; lia).
        fold n0.
        now replace (n0 + leaf_rank ct S path - n0)%nat
          with (leaf_rank ct S path) by lia.
      * exists (g (n0 + leaf_rank ct S path)%nat). split; [|exact H1].
        unfold g. apply nth_error_nth'. rewrite Hlen. unfold collected.
        rewrite length_app. fold n0. lia.
Qed.

Lemma round_trip_identity_witness :
  exists mirrored a1 a2 r,
    _collect_tensors (TyBuffer TorchTensor) sample_structure None (VStr "")
                     (new_arena sample_to_xla) = (Ok mirrored, a1)
    /\ convert a1 = (Ok tt, a2)
    /\ _replace_tensors mirrored a2 = (Ok r, a2)
    /\ subterm r [1; 1; 0]%nat
       = Some (VTensor (Tensor XLATensor 12 None)).
Proof.
  destruct (@round_trip_identity TorchTensor sample_structure
              (new_arena sample_to_xla))
    as (mirrored & a1 & a2 & r & H1 & _ & _ & H4 & H5 & _ & H6);
    [reflexivity | exact I | reflexivity |].
  exists mirrored, a1, a2, r. repeat split; try assumption.
  destruct (H6 [1; 1; 0]%nat sample_t2 eq_refl) as [_ (y & Hy & Hr)].
  rewrite Hr, <- Hy. reflexivity.
Defined.

(* ================================================================== *)
(** ** What the walker and the rehydrator do to containers *)

Lemma bind_inv_ok {S A B} (m : SE S A) (k : A -> SE S B) s b s' :
  bind m k s = (Ok b, s') ->
  exists a s1, m s = (Ok a, s1) /\ k a s1 = (Ok b, s').
Proof.
  unfold bind. destruct (m s) as [[a|e] s1]; intros H;
    [now exists a, s1 | discriminate].
Qed.

Lemma collect_loop_ok (rec : pyval -> pyval -> M pyval) devices :
  forall l i device acc a out a',
    collect_loop rec devices l i device acc a = (Ok out, a') ->
    exists l',
      out = VTuple (acc ++ l')
      /\ Forall2 (fun x y => exists d a1 a2, rec x d a1 = (Ok y, a2)) l l'.
Proof.
  induction l as [|x l IHl]; intros i device acc a out a' H; simpl in H.
  - injection H as <- <-. exists []. now rewrite app_nil_r.
  - apply bind_inv_ok in H as (d & s1 & _ & H).
    apply bind_inv_ok in H as (y & s2 & Hy & H).
    apply IHl in H as (l' & -> & Hl'). exists (y :: l'). split.
    + now rewrite <- app_assoc.
    + constructor; [now exists d, s1, s2 | exact Hl'].
Qed.

(** The rehydrator only reads the arena. *)
Lemma replace_keeps_arena :
  forall v a, snd (_replace_tensors v a) = a.
Proof.
  induction v as [v l Hl IH | v Hv] using pyval_seq_ind; intros a.
  - rewrite replace_sequence with (l := l) by exact Hl.
    generalize (@nil pyval) as acc. clear Hl.
    induction IH as [|x l Hx _ IHl]; intros acc; simpl; [reflexivity|].
    unfold bind. specialize (Hx a).
    destruct (_replace_tensors x a) as [[y|e] s1]; simpl in Hx; subst s1;
      [apply IHl | reflexivity].
  - destruct v; try discriminate; try reflexivity.
    simpl. unfold get_converted_tensor.
    destruct (_converted_tensors a) as [cv|]; [|reflexivity].
    destruct (index <? Z.of_nat (length cv))%Z; [|reflexivity].
    now destruct (py_getitem cv index).
Qed.

Lemma replace_loop_ok :
  forall l acc a out a',
    replace_loop _replace_tensors l acc a = (Ok out, a') ->
    a' = a
    /\ exists l',
         out = VTuple (acc ++ l')
         /\ Forall2 (fun x y => _replace_tensors x a = (Ok y, a)) l l'.
Proof.
  induction l as [|x l IHl]; intros acc a out a' H; simpl in H.
  - injection H as <- <-. split; [reflexivity|].
    exists []. now rewrite app_nil_r.
  - apply bind_inv_ok in H as (y & s1 & Hy & H).
    pose proof (replace_keeps_arena x a) as Hs. rewrite Hy in Hs.
    simpl in Hs. subst s1.
    apply IHl in H as (-> & l' & -> & Hl'). split; [reflexivity|].
    exists (y :: l'). split; [now rewrite <- app_assoc|].
    now constructor.
Qed.

(** C2, as the code has it.  A list or a tuple that is not itself a leaf is
    entered by the walker and by the rehydrator, and both return a tuple,
    whatever the kind of the sequence was, with as many elements, each the
    result of the recursive call on the element at the same place.  A value
    that is neither a leaf nor a list nor a tuple -- a mapping, a set, a
    scalar -- is returned as it is by the walker, which leaves the arena
    untouched; the rehydrator returns as it is everything that is neither a
    handle nor a list nor a tuple. *)
Theorem sequences_become_tuples (ct : pytype) (v : pyval) (l : list pyval) :
  sequence_items v = Some l ->
  pytype_eqb (type_ v) ct = false ->
  (forall devices device a out a',
      _collect_tensors ct v devices device a = (Ok out, a') ->
      exists l',
        out = VTuple l'
        /\ Forall2 (fun x y => exists d a1 a2,
                        _collect_tensors ct x None d a1 = (Ok y, a2)) l l')
  /\ (forall a out a',
        _replace_tensors v a = (Ok out, a') ->
        a' = a
        /\ exists l',
             out = VTuple l'
             /\ Forall2 (fun x y => _replace_tensors x a = (Ok y, a)) l l')
  /\ (forall w devices device a,
        sequence_items w = None ->
        pytype_eqb (type_ w) ct = false ->
        _collect_tensors ct w devices device a = (Ok w, a))
  /\ (forall w a,
        sequence_items w = None ->
        type_ w <> TyLinearIndex ->
        _replace_tensors w a = (Ok w, a)).
Proof.
  intros Hl Hty. repeat split.
  - intros devices device a out a' H.
    rewrite collect_sequence with (l := l) in H by assumption.
    apply collect_loop_ok in H as (l' & -> & Hl'). now exists l'.
  - rewrite replace_sequence with (l := l) in H by assumption.
    now apply replace_loop_ok in H as (-> & _).
  - rewrite replace_sequence with (l := l) in H by assumption.
    apply replace_loop_ok in H as (_ & l' & -> & Hl'). now exists l'.
  - intros w devices device a Hw Hwt. now rewrite collect_atom.
  - intros w a Hw Hwt. destruct w; try discriminate; try reflexivity.
    now elim Hwt.
Qed.

Lemma sequences_become_tuples_witness :
  exists l',
    VTuple [handle 0] = VTuple l'
    /\ Forall2 (fun x y => exists d a1 a2,
                    _collect_tensors (TyBuffer TorchTensor) x None d a1
                    = (Ok y, a2)) [sample_t0] l'.
Proof.
  destruct (@sequences_become_tuples (TyBuffer TorchTensor)
              (VList [sample_t0]) [sample_t0] eq_refl eq_refl)
    as [Hc _].
  apply (Hc None (VStr "") (new_arena sample_to_xla) (VTuple [handle 0])
            (extend (new_arena sample_to_xla) [sample_t0] [VStr ""])).
  reflexivity.
Defined.

(** C2 fails as the spec words it: a list comes back as a tuple, and a
    mapping is passed over, its buffer neither collected nor replaced. *)
Lemma structure_preservation_counterexample :
  let ct := TyBuffer TorchTensor in
  let a0 := new_arena sample_to_xla in
  (exists out a1,
      _collect_tensors ct (VList [sample_t0]) None (VStr "") a0 = (Ok out, a1)
      /\ type_ out = TyTuple
      /\ type_ out <> type_ (VList [sample_t0]))
  /\ _collect_tensors ct sample_mapping None (VStr "") a0
     = (Ok sample_mapping, a0)
  /\ leaves_of ct sample_mapping = []
  /\ _replace_tensors (VList [handle 0]) sample_converted_arena
     = (Ok (VTuple [sample_x0]), sample_converted_arena)
  /\ _replace_tensors (VDict [(VStr "w", handle 0)]) sample_converted_arena
     = (Ok (VDict [(VStr "w", handle 0)]), sample_converted_arena).
Proof.
  cbv zeta. split; [|repeat split].
  exists (VTuple [handle 0]).
  exists (extend (new_arena sample_to_xla) [sample_t0] [VStr ""]).
  repeat split. discriminate.
Qed.

(* ================================================================== *)
(** ** The arena session *)

Lemma add_inv (b tag : pyval) (a : ToXlaTensorArena) h a' :
  add b tag a = (Ok h, a') ->
  arena_accepts (type_ b) a
  /\ h = handle (length (_tensors a))
  /\ a' = extend a [b] [tag].
Proof.
  intros H.
  assert (Ha : arena_accepts (type_ b) a).
  { unfold arena_accepts. unfold add in H.
    destruct (_tensors a) as [|t0 ts]; [exact I|].
    destruct (pytype_eqb (type_ t0) (type_ b)); [reflexivity | discriminate]. }
  rewrite (add_accepted b tag a Ha) in H. injection H as <- <-. auto.
Qed.

Lemma add_all_inv :
  forall calls a hs a',
    add_all calls a = (Ok hs, a') ->
    hs = map handle (seq (length (_tensors a)) (length calls))
    /\ a' = extend a (map fst calls) (map snd calls).
Proof.
  induction calls as [|[b tag] calls IH]; intros a hs a' H; simpl in H.
  - injection H as <- <-. now rewrite extend_nil.
  - apply bind_inv_ok in H as (h & a1 & Hadd & H).
    apply bind_inv_ok in H as (hs' & a2 & Hall & H).
    injection H as <- <-.
    apply add_inv in Hadd as (_ & -> & ->).
    apply IH in Hall as (-> & ->).
    rewrite extend_extend, extend_tensors_length. simpl.
    now rewrite Nat.add_1_r.
Qed.

(** C9.  Heterogeneity rejection.  On an arena that holds a buffer already,
    [add] of a buffer of another type raises [AssertionError] and leaves the
    arena as it was: nothing is appended and nothing is converted.  [add] of
    a buffer of the same type appends it (and its tag, unless the tag is
    [None]) and returns the handle whose index is the new length minus one.
    Hence the handles of a run of successful [add]s on a new arena are
    0, 1, 2, ... in the order of the calls. *)
Theorem heterogeneity_rejection (a : ToXlaTensorArena) (t0 : pyval)
    (ts : list pyval) (b tag : pyval) :
  _tensors a = t0 :: ts ->
  (type_ b <> type_ t0 -> add b tag a = (Raise AssertionError, a))
  /\ (type_ b = type_ t0 ->
      exists a',
        add b tag a = (Ok (VIndex (Z.of_nat (length (_tensors a')) - 1)), a')
        /\ _tensors a' = _tensors a ++ [b]
        /\ _devices a' = _devices a ++ (if is_not_None tag then [tag] else [])
        /\ _converted_tensors a' = _converted_tensors a
        /\ convert_fn a' = convert_fn a)
  /\ (forall f calls hs a',
        add_all calls (new_arena f) = (Ok hs, a') ->
        hs = map (fun k => VIndex (Z.of_nat k)) (seq 0 (length calls))).
Proof.
  intros Ht. repeat split.
  - intros Hne. apply add_rejected with t0 ts; [exact Ht|].
    destruct (pytype_eqb (type_ t0) (type_ b)) eqn:E; [|reflexivity].
    apply pytype_eqb_eq in E. congruence.
  - intros Heq. exists (extend a [b] [tag]).
    assert (E : (Z.of_nat (length (_tensors (extend a [b] [tag]))) - 1
                 = Z.of_nat (length (_tensors a)))%Z)
      by (rewrite extend_tensors_length; simpl length; lia).
    rewrite E, add_accepted.
    + repeat split.
    + unfold arena_accepts. rewrite Ht, Heq. apply pytype_eqb_refl.
  - intros f calls hs a' H. now apply add_all_inv in H as (-> & _).
Qed.

Lemma heterogeneity_rejection_witness :
  add sample_x0 (VStr "") sample_converted_arena
  = (Raise AssertionError, sample_converted_arena).
Proof.
  apply (@heterogeneity_rejection sample_converted_arena sample_t0 []
           sample_x0 (VStr "") eq_refl).
  discriminate.
Defined.

(** C6, as the code has it.  [convert] has no guard on the state of the
    session: no call raises.  A call on an arena with buffers runs
    [convert_fn] on the buffer list and the tag list as they are at that
    call and overwrites the converted list; a call on an arena without
    buffers changes nothing.  So a second call succeeds like the first. *)
Theorem convert_is_repeatable (a : ToXlaTensorArena) :
  fst (convert a) = Ok tt
  /\ fst ((convert ;; convert) a) = Ok tt
  /\ _converted_tensors (snd ((convert ;; convert) a))
     = match _tensors a with
       | [] => _converted_tensors a
       | _ :: _ => Some (convert_fn a (_tensors a) (_devices a))
       end
  /\ _tensors (snd (convert a)) = _tensors a
  /\ _devices (snd (convert a)) = _devices a.
Proof.
  destruct a as [f ts ds cv]. unfold bind, convert. simpl.
  destruct ts; simpl; repeat split.
Qed.

(** C6 fails as the spec words it: the second [convert] of a session
    returns normally, and after a further [add] it has run [convert_fn]
    again, on the longer list. *)
Lemma single_conversion_counterexample :
  let a1 := extend (new_arena sample_to_xla) [sample_t0] [VStr ""] in
  (convert ;; convert) a1
  = (Ok tt,
     mkArena sample_to_xla [sample_t0] [VStr ""]
             (Some [VTensor (Tensor XLATensor 10 None)]))
  /\ (convert ;; add sample_t1 (VStr "") ;; convert) a1
     = (Ok tt,
        mkArena sample_to_xla [sample_t0; sample_t1] [VStr ""; VStr ""]
                (Some [VTensor (Tensor XLATensor 10 None);
                       VTensor (Tensor XLATensor 11 None)])).
Proof. split; reflexivity. Qed.

(** C7, as the code has it.  [get_converted_tensor] returns a buffer exactly
    when its argument is a handle, the arena has a converted list, and the
    index [i] of the handle satisfies [-len <= i < len] for the length of
    that list; the buffer is the element at [i], counted from the end when
    [i] is negative.  Which arena issued the handle plays no part.  In every
    other case it raises, and it never changes the arena. *)
Theorem get_converted_tensor_guards (h : pyval) (a : ToXlaTensorArena) :
  (forall b a',
      get_converted_tensor h a = (Ok b, a')
      <-> a' = a
          /\ exists i converted,
               h = VIndex i
               /\ _converted_tensors a = Some converted
               /\ (- Z.of_nat (length converted) <= i
                   < Z.of_nat (length converted))%Z
               /\ py_getitem converted i = Some b)
  /\ (forall e a',
        get_converted_tensor h a = (Raise e, a') ->
        a' = a /\ (e = AssertionError \/ e = IndexError)).
Proof.
  assert (Hrange : forall (l : list pyval) i b,
            py_getitem l i = Some b ->
            (- Z.of_nat (length l) <= i < Z.of_nat (length l))%Z).
  { intros l i b. unfold py_getitem.
    destruct (0 <=? i)%Z eqn:E0.
    - intros H. apply Z.leb_le in E0.
      assert (Z.to_nat i < length l)%nat
        by (apply nth_error_Some; congruence). lia.
    - destruct (- Z.of_nat (length l) <=? i)%Z eqn:E1; [|discriminate].
      intros _. apply Z.leb_le in E1. apply Z.leb_gt in E0. lia. }
  unfold get_converted_tensor. split.
  - intros b a'. split.
    + destruct h; try discriminate.
      destruct (_converted_tensors a) as [cv|]; [|discriminate].
      destruct (index <? Z.of_nat (length cv))%Z; [|discriminate].
      destruct (py_getitem cv index) as [b'|] eqn:G; [|discriminate].
      intros [= <- <-]. split; [reflexivity|].
      exists index, cv. repeat split; try assumption;
        apply (Hrange cv index b' G).
    + intros (-> & i & cv & -> & Hc & Hi & G). rewrite Hc.
      assert (E : (i <? Z.of_nat (length cv))%Z = true)
        by (apply Z.ltb_lt; lia).
      now rewrite E, G.
  - intros e a'. destruct h; try (intros [= <- <-]; auto).
    destruct (_converted_tensors a) as [cv|]; [|intros [= <- <-]; auto].
    destruct (index <? Z.of_nat (length cv))%Z; [|intros [= <- <-]; auto].
    destruct (py_getitem cv index); [discriminate | intros [= <- <-]; auto].
Qed.

(** C7 fails as the spec words it: a handle issued by another arena, and a
    handle with a negative index that no [add] ever issued, are both
    answered with a buffer. *)
Lemma get_converted_guards_counterexample :
  let other := new_arena (fun bs _ => bs) in
  exists foreign other',
    add sample_x0 VNone other = (Ok foreign, other')
    /\ get_converted_tensor foreign sample_converted_arena
       = (Ok sample_x0, sample_converted_arena)
    /\ get_converted_tensor (VIndex (-1)) sample_converted_arena
       = (Ok sample_x0, sample_converted_arena).
Proof.
  cbv zeta. exists (handle 0).
  exists (extend (new_arena (fun bs _ => bs)) [sample_x0] [VNone]).
  repeat split.
Qed.

(** C10.  Tag-list parallelism.  After a run of successful [add]s on a new
    arena, the buffer list holds the buffer of every call and the tag list
    holds the tags that were not [None], so its length is the number of
    calls that supplied a tag; [convert] hands exactly these two lists to
    [convert_fn].  One [add] without a tag already leaves the tag list
    shorter than the buffer list.  When every call supplies a tag, the tag
    list is the list of the tags of the calls, position by position; this
    is the case for [_collect_tensors] called without a device list, whose
    default tag is the empty string. *)
Theorem tag_list_parallelism
    (f : list pyval -> list pyval -> list pyval) :
  (forall calls hs a,
      add_all calls (new_arena f) = (Ok hs, a) ->
      _tensors a = map fst calls
      /\ _devices a = filter is_not_None (map snd calls)
      /\ length (_devices a)
         = length (filter (fun call => is_not_None (snd call)) calls)
      /\ (calls <> [] ->
          convert a
          = (Ok tt,
             mkArena f (_tensors a) (_devices a)
                     (Some (f (map fst calls)
                              (filter is_not_None (map snd calls)))))))
  /\ (forall b,
        exists a,
          add b VNone (new_arena f) = (Ok (VIndex 0), a)
          /\ length (_tensors a) = 1%nat
          /\ length (_devices a) = 0%nat)
  /\ (forall calls hs a,
        add_all calls (new_arena f) = (Ok hs, a) ->
        Forall (fun call => is_not_None (snd call) = true) calls ->
        _devices a = map snd calls
        /\ length (_devices a) = length (_tensors a))
  /\ (forall ct S,
        exists mirrored a,
          _collect_tensors ct S None (VStr "") (new_arena f)
          = (Ok mirrored, a)
          /\ _devices a = map (fun _ => VStr "") (_tensors a)).
Proof.
  assert (Hfilter : forall calls : list (pyval * pyval),
            filter is_not_None (map snd calls)
            = map snd (filter (fun call => is_not_None (snd call)) calls)).
  { induction calls as [|[b t] calls IH]; simpl; [reflexivity|].
    destruct (is_not_None t); simpl; now rewrite IH. }
  repeat split.
  - apply add_all_inv in H as (_ & ->). reflexivity.
  - apply add_all_inv in H as (_ & ->). reflexivity.
  - apply add_all_inv in H as (_ & ->). simpl. unfold recorded.
    now rewrite Hfilter, length_map.
  - intros Hne. apply add_all_inv in H as (_ & ->).
    unfold convert. simpl.
    destruct calls as [|call calls]; [congruence | reflexivity].
  - intros b. exists (extend (new_arena f) [b] [VNone]). repeat split.
  - apply add_all_inv in H as (_ & ->). simpl. unfold recorded.
    rewrite Hfilter. f_equal.
    induction H0 as [|call calls Hc _ IH]; simpl; [reflexivity|].
    now rewrite Hc, IH.
  - apply add_all_inv in H as (_ & ->). simpl. unfold recorded.
    rewrite Hfilter, !length_map. f_equal.
    induction H0 as [|call calls Hc _ IH]; simpl; [reflexivity|].
    now rewrite Hc, IH.
  - intros ct S.
    exists (relabel ct handle S 0).
    exists (extend (new_arena f) (leaves_of ct S)
                   (map (fun _ => VStr "") (leaves_of ct S))).
    split; [now apply collect_spec|].
    simpl. now rewrite recorded_const.
Qed.

Lemma tag_list_parallelism_witness :
  _tensors (snd (add_all [(sample_t0, VStr "a"); (sample_t1, VNone)]
                         (new_arena sample_to_xla)))
  = [sample_t0; sample_t1]
  /\ _devices (snd (add_all [(sample_t0, VStr "a"); (sample_t1, VNone)]
                            (new_arena sample_to_xla)))
     = [VStr "a"].
Proof.
  destruct (tag_list_parallelism sample_to_xla) as [H _].
  destruct (H [(sample_t0, VStr "a"); (sample_t1, VNone)]
              [handle 0; handle 1]
              (snd (add_all [(sample_t0, VStr "a"); (sample_t1, VNone)]
                            (new_arena sample_to_xla)))
              eq_refl)
    as (H1 & H2 & _).
  split; [exact H1 | exact H2].
Defined.

(* ================================================================== *)
(** ** Device tags *)

Lemma recorded_all_tagged ct (ds : list pyval) :
  Forall (fun d => is_not_None d = true) ds ->
  forall l i,
    (i + length l <= length ds)%nat ->
    recorded (map snd (tagged_leaves ct (fun j => nth j ds VNone) l i))
    = map snd (tagged_leaves ct (fun j => nth j ds VNone) l i).
Proof.
  intros Hds. induction l as [|x l IHl]; intros i Hi; simpl in *;
    [reflexivity|].
  rewrite map_app, recorded_app, IHl by lia.
  rewrite map_map. simpl. rewrite recorded_const; [reflexivity|].
  rewrite Forall_forall in Hds. apply Hds. apply nth_In. lia.
Qed.

(** C8.  Device-tag propagation.  Let the walker be given a device list and
    an outer list or tuple that is not itself a leaf, on an arena that takes
    buffers of the collected type.  When the device list covers every slot,
    the walker succeeds and has registered, after what the arena held,
    every leaf under slot [i], at whatever depth, with the tag
    [devices[i]]: the buffer list grows by the leaves in collection order
    and the tag list by their tags (a tag that is [None] is passed to [add]
    like the others but not recorded by it; when no entry of the device list
    is [None] the tag list grows by the tag of every leaf).  When the device
    list is shorter than the outer sequence, the walker raises
    [AssertionError] on reaching slot [len(devices)]: by then the arena has
    been extended with the leaves of the slots before it, and with none of
    that slot or the later ones. *)
Theorem device_tag_propagation (ct : pytype) (outer : pyval)
    (slots devices : list pyval) (device : pyval) (a : ToXlaTensorArena) :
  let tagged := tagged_leaves ct (fun i => nth i devices VNone) in
  sequence_items outer = Some slots ->
  pytype_eqb (type_ outer) ct = false ->
  arena_accepts ct a ->
  ((length slots <= length devices)%nat ->
     _collect_tensors ct outer (Some devices) device a
     = (Ok (relabel ct handle outer (length (_tensors a))),
        mkArena (convert_fn a)
                (_tensors a ++ map fst (tagged slots 0%nat))
                (_devices a
                 ++ filter is_not_None (map snd (tagged slots 0%nat)))
                (_converted_tensors a))
     /\ map fst (tagged slots 0%nat) = leaves_of ct outer
     /\ (Forall (fun d => is_not_None d = true) devices ->
         filter is_not_None (map snd (tagged slots 0%nat))
         = map snd (tagged slots 0%nat)))
  /\ ((length devices < length slots)%nat ->
        let covered := firstn (length devices) slots in
        _collect_tensors ct outer (Some devices) device a
        = (Raise AssertionError,
           mkArena (convert_fn a)
                   (_tensors a ++ map fst (tagged covered 0%nat))
                   (_devices a
                    ++ filter is_not_None (map snd (tagged covered 0%nat)))
                   (_converted_tensors a))
        /\ map fst (tagged covered 0%nat)
           = flat_map (leaves_of ct) covered).
Proof.
  intros tagged Hl Hty Ha. split.
  - intros Hlen. repeat split.
    + rewrite collect_sequence with (l := slots) by assumption.
      rewrite collect_loop_covered;
        [| clear; induction slots; constructor;
           [apply collect_spec | assumption]
         | exact Ha | simpl; lia ].
      rewrite relabel_sequence with (l := slots) by assumption.
      reflexivity.
    + unfold tagged. rewrite tagged_leaves_fst.
      now rewrite leaves_of_sequence with (l := slots).
    + intros Hds. apply (recorded_all_tagged ct Hds). simpl. lia.
  - intros Hlen covered. split.
    + rewrite collect_sequence with (l := slots) by assumption.
      rewrite collect_loop_uncovered by (assumption || lia).
      now rewrite Nat.sub_0_r.
    + unfold tagged. apply tagged_leaves_fst.
Qed.

Lemma device_tag_propagation_witness :
  _collect_tensors (TyBuffer TorchTensor)
                   (VList [VList [sample_t0; VTuple [sample_t1]]; sample_t2])
                   (Some [VStr "xla:0"; VStr "xla:1"]) (VStr "")
                   (new_arena sample_to_xla)
  = (Ok (VTuple [VTuple [VIndex 0; VTuple [VIndex 1]]; VIndex 2]),
     mkArena sample_to_xla [sample_t0; sample_t1; sample_t2]
             [VStr "xla:0"; VStr "xla:0"; VStr "xla:1"] None)
  /\ _collect_tensors (TyBuffer TorchTensor)
                      (VList [VList [sample_t0; VTuple [sample_t1]];
                              sample_t2])
                      (Some [VStr "xla:0"]) (VStr "")
                      (new_arena sample_to_xla)
     = (Raise AssertionError,
        mkArena sample_to_xla [sample_t0; sample_t1]
                [VStr "xla:0"; VStr "xla:0"] None).
Proof.
  split.
  - destruct (@device_tag_propagation (TyBuffer TorchTensor)
                (VList [VList [sample_t0; VTuple [sample_t1]]; sample_t2])
                [VList [sample_t0; VTuple [sample_t1]]; sample_t2]
                [VStr "xla:0"; VStr "xla:1"] (VStr "")
                (new_arena sample_to_xla) eq_refl eq_refl I) as [H _].
    destruct (H (le_n 2)) as [H1 _]. exact H1.
  - destruct (@device_tag_propagation (TyBuffer TorchTensor)
                (VList [VList [sample_t0; VTuple [sample_t1]]; sample_t2])
                [VList [sample_t0; VTuple [sample_t1]]; sample_t2]
                [VStr "xla:0"] (VStr "")
                (new_arena sample_to_xla) eq_refl eq_refl I) as [_ H].
    destruct (H (le_n 2)) as [H1 _]. exact H1.
Defined.

(* ================================================================== *)
(** ** The step synchronizer *)

Section StepFacts.

Variable W : Type.
Variable rt : Runtime W.

Lemma mark_step_no_export (st : OptimizerState) (w : W) (tr : list event) :
  debug_dump_dir rt w = None ->
  let device := xla_get_default_device rt w in
  _mark_step rt st (w, tr)
  = (fst (xla_step_marker rt device w),
     (snd (xla_step_marker rt device w),
      tr ++ [EvGetDefaultDevice; EvStepMarker device])).
Proof.
  unfold debug_dump_dir, _mark_step, bind, environ, call, ret. simpl.
  intros H.
  destruct (environ_get rt "SAVE_GRAPH_DIR" w) as [dir|];
    [destruct (negb (String.eqb dir "")); [discriminate|] |];
    simpl; destruct (xla_step_marker rt (xla_get_default_device rt w) w)
      as [[u|e] w']; simpl; now rewrite <- app_assoc.
Qed.

Lemma mark_step_export_ok (st : OptimizerState) (w : W) (tr : list event)
    dir u w' :
  debug_dump_dir rt w = Some dir ->
  save_tensors_graph rt dir "optimizer_step" (gradients st ++ tensors st) w
  = (Ok u, w') ->
  let device := xla_get_default_device rt w' in
  _mark_step rt st (w, tr)
  = (fst (xla_step_marker rt device w'),
     (snd (xla_step_marker rt device w'),
      tr ++ [export_event dir st; EvGetDefaultDevice;
             EvStepMarker device])).
Proof.
  unfold debug_dump_dir, _mark_step, bind, environ, call, ret. simpl.
  intros H Hs.
  destruct (environ_get rt "SAVE_GRAPH_DIR" w) as [dir'|]; [|discriminate].
  destruct (negb (String.eqb dir' "")); [|discriminate].
  injection H as ->. unfold call. simpl. rewrite Hs. simpl.
  destruct (xla_step_marker rt (xla_get_default_device rt w') w')
    as [[u'|e] w'']; simpl; now rewrite <- !app_assoc.
Qed.

Lemma mark_step_export_raises (st : OptimizerState) (w : W)
    (tr : list event) dir e w' :
  debug_dump_dir rt w = Some dir ->
  save_tensors_graph rt dir "optimizer_step" (gradients st ++ tensors st) w
  = (Raise e, w') ->
  _mark_step rt st (w, tr) = (Raise e, (w', tr ++ [export_event dir st])).
Proof.
  unfold debug_dump_dir, _mark_step, bind, environ, call, ret. simpl.
  intros H Hs.
  destruct (environ_get rt "SAVE_GRAPH_DIR" w) as [dir'|]; [|discriminate].
  destruct (negb (String.eqb dir' "")); [|discriminate].
  injection H as ->. unfold call. simpl. now rewrite Hs.
Qed.

(** Every call [_mark_step] makes comes after those already made, and
    none is the collective. *)
Lemma mark_step_trace (st : OptimizerState) (w : W) (tr : list event) :
  exists more,
    snd (snd (_mark_step rt st (w, tr))) = tr ++ more
    /\ Forall (fun ev => is_cross_replica_sum ev = false) more.
Proof.
  destruct (debug_dump_dir rt w) as [dir|] eqn:Hd.
  - destruct (save_tensors_graph rt dir "optimizer_step"
                (gradients st ++ tensors st) w) as [[u|e] w'] eqn:Hs.
    + rewrite (@mark_step_export_ok st w tr dir u w' Hd Hs). simpl.
      eexists. split; [reflexivity | repeat constructor].
    + rewrite (@mark_step_export_raises st w tr dir e w' Hd Hs). simpl.
      eexists. split; [reflexivity | repeat constructor].
  - rewrite (@mark_step_no_export st w tr Hd). simpl.
    eexists. split; [reflexivity | repeat constructor].
Qed.

(** [optimizer_step] up to the call of [optimizer.step], when the
    collective, if called, returns. *)
Lemma optimizer_step_reaches_step (optimizer : Optimizer) (closure : pyval)
    (w : W) (st : OptimizerState) :
  _fetch_optimizer_state (recursion_limit rt) optimizer = Ok st ->
  ((1 < xla_replication_device_count rt w)%Z ->
   fst (xla_cross_replica_sum rt (gradients st)
          (1 # Z.to_pos (xla_replication_device_count rt w)) [] w)
   = Ok tt) ->
  optimizer_step rt optimizer closure (w, [])
  = (loss <- call (EvOptimizerStep closure)
               (optimizer_step_method rt optimizer closure) ;;
     _mark_step rt st ;;
     ret loss)
      (world_before_step rt st w, calls_before_step rt st w).
Proof.
  intros Hf Hsum.
  unfold optimizer_step, world_before_step, calls_before_step, sum_event.
  unfold bind at 1. unfold lift_result. rewrite Hf.
  unfold bind at 1. unfold call at 1. simpl fst. simpl snd.
  unfold bind at 1.
  destruct (1 <? xla_replication_device_count rt w)%Z eqn:Hc.
  - apply Z.ltb_lt in Hc. specialize (Hsum Hc).
    unfold call at 1. simpl fst. simpl snd.
    destruct (xla_cross_replica_sum rt (gradients st)
                (1 # Z.to_pos (xla_replication_device_count rt w)) [] w)
      as [[[]|e] w1]; simpl in Hsum; [reflexivity | discriminate].
  - reflexivity.
Qed.

Lemma optimizer_step_sum_raises (optimizer : Optimizer) (closure : pyval)
    (w : W) (st : OptimizerState) e w1 :
  _fetch_optimizer_state (recursion_limit rt) optimizer = Ok st ->
  (1 < xla_replication_device_count rt w)%Z ->
  xla_cross_replica_sum rt (gradients st)
    (1 # Z.to_pos (xla_replication_device_count rt w)) [] w
  = (Raise e, w1) ->
  optimizer_step rt optimizer closure (w, [])
  = (Raise e, (w1, calls_before_step rt st w)).
Proof.
  intros Hf Hc Hsum.
  unfold optimizer_step, calls_before_step, sum_event.
  unfold bind at 1. unfold lift_result. rewrite Hf.
  unfold bind at 1. unfold call at 1. simpl fst. simpl snd.
  unfold bind at 1.
  apply Z.ltb_lt in Hc. rewrite Hc.
  unfold call at 1. simpl fst. simpl snd. now rewrite Hsum.
Qed.

End StepFacts.

Lemma bind_ret_state {S A B} (m : SE S A) (b : B) s :
  snd (bind m (fun _ => ret b) s) = snd (m s).
Proof. unfold bind, ret. now destruct (m s) as [[a|e] s']. Qed.

Lemma bind_ret_ok {S A B} (m : SE S A) (b : B) s a s' :
  m s = (Ok a, s') -> bind m (fun _ => ret b) s = (Ok b, s').
Proof. unfold bind, ret. now intros ->. Qed.

(** C3.  Step protocol.  Let the collector return the state [st].  The
    calls [optimizer_step] makes begin with the query of the replication
    device count; when the count exceeds 1 the next call is the cross-replica
    sum, on the gradients of [st], with the scale [1/count] and the empty
    group list, and when it does not, the sum is not called; no later call
    is the sum, and the call of [optimizer.step(closure)], if it is reached,
    is the first of the later calls.  When the sum (if called),
    [optimizer.step], the export (if a dump directory is configured) and the
    step marker all return normally, [optimizer_step] returns the very value
    [optimizer.step] returned, and after [optimizer.step] the only calls are
    the export, if any, the query of the default device and, last, the step
    marker. *)
Theorem step_protocol (W : Type) (rt : Runtime W) (optimizer : Optimizer)
    (closure : pyval) (w : W) (st : OptimizerState) :
  _fetch_optimizer_state (recursion_limit rt) optimizer = Ok st ->
  let count := xla_replication_device_count rt w in
  let out := optimizer_step rt optimizer closure (w, []) in
  let trace := snd (snd out) in
  (exists rest,
      trace
      = (if (1 <? count)%Z
         then [EvReplicationDeviceCount;
               EvCrossReplicaSum (gradients st) (1 # Z.to_pos count) []]
         else [EvReplicationDeviceCount]) ++ rest
      /\ Forall (fun ev => is_cross_replica_sum ev = false) rest
      /\ (rest = [] \/ exists rest', rest = EvOptimizerStep closure :: rest'))
  /\ (forall loss w2,
        ((1 < count)%Z ->
         fst (xla_cross_replica_sum rt (gradients st) (1 # Z.to_pos count)
                                    [] w) = Ok tt) ->
        optimizer_step_method rt optimizer closure
                              (world_before_step rt st w) = (Ok loss, w2) ->
        (forall dir,
            debug_dump_dir rt w2 = Some dir ->
            fst (save_tensors_graph rt dir "optimizer_step"
                   (gradients st ++ tensors st) w2) = Ok tt) ->
        let w3 := world_after_export rt st w2 in
        let device := xla_get_default_device rt w3 in
        fst (xla_step_marker rt device w3) = Ok tt ->
        fst out = Ok loss
        /\ trace
           = calls_before_step rt st w
             ++ [EvOptimizerStep closure]
             ++ export_calls rt st w2
             ++ [EvGetDefaultDevice; EvStepMarker device]).
Proof.
  intros Hf count out trace. split.
  - (* the shape of the trace, whatever the collaborators do *)
    change (if (1 <? count)%Z
            then [EvReplicationDeviceCount;
                  EvCrossReplicaSum (gradients st) (1 # Z.to_pos count) []]
            else [EvReplicationDeviceCount])
      with (calls_before_step rt st w).
    destruct (Z.lt_ge_cases 1 count) as [Hc|Hc].
    + destruct (xla_cross_replica_sum rt (gradients st)
                  (1 # Z.to_pos count) [] w) as [[[]|e] w1] eqn:Hsum.
      * unfold trace, out.
        rewrite (@optimizer_step_reaches_step W rt optimizer closure w st Hf)
          by (intros _; fold count; now rewrite Hsum).
        set (s := (world_before_step rt st w, calls_before_step rt st w)).
        unfold bind at 1. unfold call at 1. simpl fst. simpl snd.
        destruct (optimizer_step_method rt optimizer closure
                    (world_before_step rt st w)) as [[loss|e] w2].
        -- rewrite bind_ret_state.
           destruct (mark_step_trace rt st w2
                       (calls_before_step rt st w ++ [EvOptimizerStep closure]))
             as (more & -> & Hmore).
           exists (EvOptimizerStep closure :: more).
           rewrite <- app_assoc. repeat split.
           ++ constructor; [reflexivity | exact Hmore].
           ++ right. now exists more.
        -- exists [EvOptimizerStep closure]. repeat split.
           ++ repeat constructor.
           ++ right. now exists [].
      * unfold trace, out.
        rewrite (@optimizer_step_sum_raises W rt optimizer closure w st e w1
                   Hf Hc Hsum).
        exists []. simpl. rewrite app_nil_r. auto.
    + unfold trace, out.
      rewrite (@optimizer_step_reaches_step W rt optimizer closure w st Hf)
        by (fold count; lia).
      unfold bind at 1. unfold call at 1. simpl fst. simpl snd.
      destruct (optimizer_step_method rt optimizer closure
                  (world_before_step rt st w)) as [[loss|e] w2].
      * rewrite bind_ret_state.
        destruct (mark_step_trace rt st w2
                    (calls_before_step rt st w ++ [EvOptimizerStep closure]))
          as (more & -> & Hmore).
        exists (EvOptimizerStep closure :: more).
        rewrite <- app_assoc. repeat split.
        -- constructor; [reflexivity | exact Hmore].
        -- right. now exists more.
      * exists [EvOptimizerStep closure]. repeat split.
        -- repeat constructor.
        -- right. now exists [].
  - (* normal completion *)
    intros loss w2 Hsum Hstep Hexport w3 device Hmarker.
    assert (Hmark :
      _mark_step rt st
        (w2, calls_before_step rt st w ++ [EvOptimizerStep closure])
      = (Ok tt,
         (snd (xla_step_marker rt device w3),
          calls_before_step rt st w
          ++ [EvOptimizerStep closure]
          ++ export_calls rt st w2
          ++ [EvGetDefaultDevice; EvStepMarker device]))).
    { unfold device, w3, world_after_export, export_calls in *.
      destruct (debug_dump_dir rt w2) as [dir|] eqn:Hd.
      - specialize (Hexport dir eq_refl).
        destruct (save_tensors_graph rt dir "optimizer_step"
                    (gradients st ++ tensors st) w2) as [[[]|e] w'] eqn:Hs;
          simpl in Hexport; [|discriminate].
        rewrite (@mark_step_export_ok W rt st w2 _ dir tt w' Hd Hs).
        simpl snd in *. rewrite Hmarker. now rewrite <- app_assoc.
      - rewrite (@mark_step_no_export W rt st w2 _ Hd).
        rewrite Hmarker. now rewrite <- app_assoc. }
    assert (Hout :
      optimizer_step rt optimizer closure (w, [])
      = (Ok loss,
         (snd (xla_step_marker rt device w3),
          calls_before_step rt st w
          ++ [EvOptimizerStep closure]
          ++ export_calls rt st w2
          ++ [EvGetDefaultDevice; EvStepMarker device]))).
    { rewrite (@optimizer_step_reaches_step W rt optimizer closure w st
                 Hf Hsum).
      unfold bind at 1. unfold call at 1. simpl fst. simpl snd.
      rewrite Hstep. apply bind_ret_ok with tt. exact Hmark. }
    unfold trace, out. rewrite Hout. split; reflexivity.
Qed.

Lemma step_protocol_witness :
  fst (optimizer_step (sample_runtime 4 None (Ok tt)) sample_optimizer VNone
                      (tt, [])) = Ok sample_loss
  /\ snd (snd (optimizer_step (sample_runtime 4 None (Ok tt))
                              sample_optimizer VNone (tt, [])))
     = [EvReplicationDeviceCount;
        EvCrossReplicaSum [VTensor (data sample_g0); VTensor (data sample_g1)]
                          (1 # 4) [];
        EvOptimizerStep VNone;
        EvGetDefaultDevice;
        EvStepMarker (VStr "xla:0")].
Proof.
  destruct (@step_protocol unit (sample_runtime 4 None (Ok tt))
              sample_optimizer VNone tt
              (mkOptimizerState
                 [VTensor (data sample_p0); VTensor (data sample_m0);
                  VTensor (data sample_p1); VTensor (data sample_m1)]
                 [VTensor (data sample_g0); VTensor (data sample_g1)])
              eq_refl) as [_ H].
  apply (H sample_loss tt); reflexivity.
Defined.

(** C5, as the code has it.  [_mark_step] calls the export, when a dump
    directory is configured, before the step marker and without a handler
    around it.  So, once [optimizer.step] has returned a loss: if the export
    raises, the exception leaves [optimizer_step], the step marker is not
    emitted and the loss is not returned; if the export returns and the
    step marker returns, [optimizer_step] returns the loss, the marker
    having been emitted after the export. *)
Theorem export_failure_propagates (W : Type) (rt : Runtime W)
    (optimizer : Optimizer) (closure : pyval) (w : W) (st : OptimizerState)
    (loss : pyval) (w2 : W) (dir : string) :
  _fetch_optimizer_state (recursion_limit rt) optimizer = Ok st ->
  ((1 < xla_replication_device_count rt w)%Z ->
   fst (xla_cross_replica_sum rt (gradients st)
          (1 # Z.to_pos (xla_replication_device_count rt w)) [] w) = Ok tt) ->
  optimizer_step_method rt optimizer closure (world_before_step rt st w)
  = (Ok loss, w2) ->
  debug_dump_dir rt w2 = Some dir ->
  let export :=
    save_tensors_graph rt dir "optimizer_step" (gradients st ++ tensors st)
                       w2 in
  let out := optimizer_step rt optimizer closure (w, []) in
  (forall e w3,
      export = (Raise e, w3) ->
      out = (Raise e,
             (w3, calls_before_step rt st w
                  ++ [EvOptimizerStep closure; export_event dir st]))
      /\ Forall (fun ev => is_step_marker ev = false) (snd (snd out)))
  /\ (forall w3 w4,
        export = (Ok tt, w3) ->
        xla_step_marker rt (xla_get_default_device rt w3) w3 = (Ok tt, w4) ->
        out = (Ok loss,
               (w4, calls_before_step rt st w
                    ++ [EvOptimizerStep closure; export_event dir st;
                        EvGetDefaultDevice;
                        EvStepMarker (xla_get_default_device rt w3)]))).
Proof.
  intros Hf Hsum Hstep Hdir export out.
  assert (Hout : out
                 = (_mark_step rt st ;; ret loss)
                     (w2, calls_before_step rt st w
                          ++ [EvOptimizerStep closure])).
  { unfold out.
    rewrite (@optimizer_step_reaches_step W rt optimizer closure w st Hf Hsum).
    unfold bind at 1. unfold call at 1. simpl fst. simpl snd.
    now rewrite Hstep. }
  split.
  - intros e w3 He.
    assert (Hraise : out
                     = (Raise e,
                        (w3, calls_before_step rt st w
                             ++ [EvOptimizerStep closure;
                                 export_event dir st]))).
    { rewrite Hout. unfold bind.
      rewrite (@mark_step_export_raises W rt st w2 _ dir e w3 Hdir He).
      now rewrite <- app_assoc. }
    split; [exact Hraise|]. rewrite Hraise. simpl.
    apply Forall_app. split; [|repeat constructor].
    unfold calls_before_step, sum_event.
    destruct (1 <? xla_replication_device_count rt w)%Z; repeat constructor.
  - intros w3 w4 He Hm. rewrite Hout. unfold bind.
    rewrite (@mark_step_export_ok W rt st w2 _ dir tt w3 Hdir He).
    rewrite Hm. simpl. unfold ret. now rewrite <- app_assoc.
Qed.

Lemma export_failure_propagates_witness :
  optimizer_step
    (sample_runtime 1 (Some "/tmp/graphs"%string)
                    (Raise (ExternalError "disk full")))
    sample_optimizer VNone (tt, [])
  = (Raise (ExternalError "disk full"),
     (tt,
      [EvReplicationDeviceCount;
       EvOptimizerStep VNone;
       EvSaveTensorsGraph "/tmp/graphs" "optimizer_step"
         [VTensor (data sample_g0); VTensor (data sample_g1);
          VTensor (data sample_p0); VTensor (data sample_m0);
          VTensor (data sample_p1); VTensor (data sample_m1)]])).
Proof.
  destruct (@export_failure_propagates unit
              (sample_runtime 1 (Some "/tmp/graphs"%string)
                              (Raise (ExternalError "disk full")))
              sample_optimizer VNone tt
              (mkOptimizerState
                 [VTensor (data sample_p0); VTensor (data sample_m0);
                  VTensor (data sample_p1); VTensor (data sample_m1)]
                 [VTensor (data sample_g0); VTensor (data sample_g1)])
              sample_loss tt "/tmp/graphs"%string
              eq_refl ltac:(intros H; discriminate H) eq_refl eq_refl)
    as [H _].
  destruct (H (ExternalError "disk full") tt eq_refl) as [H1 _].
  exact H1.
Defined.

(** C5 fails as the spec words it: with a dump directory configured and an
    export that raises, [optimizer_step] raises the export's exception; the
    step marker is not among the calls made and the loss that
    [optimizer.step] returned is lost. *)
Lemma diagnostic_export_counterexample :
  let out :=
    optimizer_step
      (sample_runtime 1 (Some "/tmp/graphs"%string)
                      (Raise (ExternalError "disk full")))
      sample_optimizer VNone (tt, []) in
  fst out = Raise (ExternalError "disk full")
  /\ fst out <> Ok sample_loss
  /\ existsb is_step_marker (snd (snd out)) = false
  /\ existsb (fun ev => match ev with EvOptimizerStep _ => true | _ => false end)
             (snd (snd out)) = true.
Proof. cbv zeta. repeat split. discriminate. Qed.

(* ================================================================== *)
(** ** The optimizer-state collector *)

Lemma state_get_absent (pms : list (tensor * tensor)) (m : tensor) :
  ~ In (tensor_id m) (map (fun qm => tensor_id (fst qm)) pms) ->
  state_get (state_items pms) m = VNone.
Proof.
  induction pms as [|[p b] pms IH]; simpl; intros Hm; [reflexivity|].
  destruct (tensor_id p =? tensor_id m)%Z eqn:E.
  - apply Z.eqb_eq in E. elim Hm. now left.
  - apply IH. intros Hin. apply Hm. now right.
Qed.

Lemma state_get_present (pms : list (tensor * tensor)) (p : tensor) :
  state_get (state_items pms) p = VNone
  \/ exists pm, In pm pms
                /\ state_get (state_items pms) p = momentum_state (snd pm).
Proof.
  induction pms as [|[q b] pms IH]; simpl; [now left|].
  destruct (tensor_id q =? tensor_id p)%Z.
  - right. exists (q, b). auto.
  - destruct IH as [IH | (pm & Hin & IH)]; [now left|].
    right. exists pm. auto.
Qed.

Lemma for_each_gradients
    (f : pyval -> OptimizerState -> result OptimizerState)
    (g : pyval -> list pyval) (l : list pyval) :
  Forall (fun x => forall st, exists st',
                     f x st = Ok st'
                     /\ gradients st' = gradients st ++ g x) l ->
  forall st, exists st',
    for_each f l st = Ok st'
    /\ gradients st' = gradients st ++ flat_map g l.
Proof.
  induction 1 as [|x l Hx _ IHl]; intros st; simpl.
  - exists st. now rewrite app_nil_r.
  - destruct (Hx st) as (st1 & -> & H1).
    destruct (IHl st1) as (st2 & -> & H2).
    exists st2. split; [reflexivity|]. now rewrite H2, H1, app_assoc.
Qed.

Lemma fetch_add_dict depth optimizer items st :
  fetch_add (S depth) optimizer (VDict items) st
  = for_each_item (fetch_add depth optimizer) items st.
Proof. reflexivity. Qed.

Lemma fetch_add_list depth optimizer l st :
  fetch_add (S depth) optimizer (VList l) st
  = for_each (fetch_add depth optimizer) l st.
Proof. reflexivity. Qed.

Lemma fetch_add_str depth optimizer s st :
  fetch_add (S depth) optimizer (VStr s) st = Ok st.
Proof. reflexivity. Qed.

(** The collector on one parameter: its gradient, if it has one, is
    appended once; its momentum buffer adds no gradient. *)
Lemma fetch_add_param (pms : list (tensor * tensor)) (snapshot : pyval)
    (depth : nat) (p : tensor) (st : OptimizerState) :
  Forall (param_with_momentum pms) pms ->
  isinstance_torch_Tensor (VTensor p) = true ->
  exists st',
    fetch_add (S (S (S depth))) (mkOptimizer snapshot (state_items pms))
              (VTensor p) st = Ok st'
    /\ gradients st' = gradients st ++ gradient_of p.
Proof.
  intros Hwf Hp.
  cbn [fetch_add]. rewrite Hp. cbn [state].
  set (st2 := match tensor_grad p with
              | Some g => _
              | None => _
              end).
  assert (Hst2 : gradients st2 = gradients st ++ gradient_of p).
  { unfold st2, gradient_of. destruct (tensor_grad p); simpl;
      [reflexivity | now rewrite app_nil_r]. }
  destruct (state_get_present pms p) as [-> | (pm & Hin & ->)].
  - simpl. now exists st2.
  - rewrite Forall_forall in Hwf. destruct (Hwf pm Hin) as (_ & Hg & Hid).
    unfold momentum_state. cbn [truthy length Nat.eqb negb for_each_item].
    cbn [isinstance_torch_Tensor].
    rewrite (state_get_absent pms (snd pm) Hid). rewrite Hg.
    cbn [truthy].
    destruct (tensor_cls (snd pm)); eexists; (split; [reflexivity|]);
      simpl; exact Hst2.
Qed.

(** C4, as the code has it.  Let the snapshot list the parameters once, in
    their parameter group, and let [optimizer.state] map every parameter to
    its momentum state.  Then, the recursion limit allowing the seven
    nested calls this shape needs, the collector returns a state whose
    gradient list is the list of the gradients of the parameters, each
    once, in the order of the parameters.  The list is a function of the
    snapshot: any parameters in this shape give their gradients these
    positions. *)
Theorem collector_ordering (pms : list (tensor * tensor)) (limit : nat) :
  (7 <= limit)%nat ->
  Forall (param_with_momentum pms) pms ->
  exists st,
    _fetch_optimizer_state limit
      (mkOptimizer (params_snapshot (map fst pms)) (state_items pms))
    = Ok st
    /\ gradients st = flat_map (fun pm => gradient_of (fst pm)) pms.
Proof.
  intros Hlimit Hwf.
  replace limit with (S (S (S (S (S (S (S (limit - 7)))))))) by lia.
  set (depth := (limit - 7)%nat).
  unfold _fetch_optimizer_state, params_snapshot, param_groups.
  cbn [getstate].
  set (opt := mkOptimizer _ _).
  rewrite fetch_add_dict. cbn [for_each_item].
  rewrite fetch_add_str, fetch_add_list. cbn [for_each].
  rewrite fetch_add_dict. cbn [for_each_item].
  rewrite fetch_add_str, fetch_add_list.
  destruct (@for_each_gradients
              (fetch_add (S (S (S depth))) opt)
              (fun x => match x with
                        | VTensor p => gradient_of p
                        | _ => []
                        end)
              (map VTensor (map fst pms))) with (st := mkOptimizerState [] [])
    as (st & Hrun & Hgrads).
  - apply Forall_forall. intros x Hx st0.
    apply in_map_iff in Hx as (p & <- & Hp).
    apply in_map_iff in Hp as (pm & <- & Hpm).
    apply fetch_add_param; [exact Hwf|].
    rewrite Forall_forall in Hwf. now destruct (Hwf pm Hpm).
  - exists st. rewrite Hrun. split; [reflexivity|].
    rewrite Hgrads. simpl. clear.
    induction pms as [|pm pms IH]; simpl; [reflexivity | now rewrite IH].
Qed.

Lemma collector_ordering_witness :
  exists st,
    _fetch_optimizer_state 1000 sample_optimizer = Ok st
    /\ gradients st = [VTensor (data sample_g0); VTensor (data sample_g1)].
Proof.
  apply (@collector_ordering sample_pms 1000).
  - lia.
  - apply Forall_cons; [|apply Forall_cons; [|apply Forall_nil]];
      (split; [reflexivity | split; [reflexivity | simpl; lia]]).
Defined.

(** C4 fails as the spec words it: when the snapshot holds the state
    mapping next to the parameter groups, every parameter is met twice, as a
    key of the mapping and as a member of its group, and so is its
    gradient. *)
Lemma collector_ordering_counterexample :
  exists st,
    _fetch_optimizer_state 1000 sample_torch_optimizer = Ok st
    /\ gradients st
       = [VTensor (data sample_g0); VTensor (data sample_g1);
          VTensor (data sample_g0); VTensor (data sample_g1)]
    /\ gradients st
       <> [VTensor (data sample_g0); VTensor (data sample_g1)].
Proof.
  exists (mkOptimizerState
            [VTensor (data sample_p0); VTensor (data sample_m0);
             VTensor (data sample_m0);
             VTensor (data sample_p1); VTensor (data sample_m1);
             VTensor (data sample_m1);
             VTensor (data sample_p0); VTensor (data sample_m0);
             VTensor (data sample_p1); VTensor (data sample_m1)]
            [VTensor (data sample_g0); VTensor (data sample_g1);
             VTensor (data sample_g0); VTensor (data sample_g1)]).
  split; [vm_compute; reflexivity|]. split; [reflexivity | discriminate].
Qed.

(* ================================================================== *)
(** ** Further properties of the arena, the walker and the rehydrator *)

(** On a session without buffers [convert] does nothing, [convert_fn] is
    not run, and no converted list exists afterwards: whatever is asked of
    [get_converted_tensor] then, it raises [AssertionError]. *)
Theorem empty_session_convert (f : list pyval -> list pyval -> list pyval)
    (h : pyval) :
  convert (new_arena f) = (Ok tt, new_arena f)
  /\ (convert ;; get_converted_tensor h) (new_arena f)
     = (Raise AssertionError, new_arena f).
Proof.
  split; [reflexivity|]. unfold bind. simpl. now destruct h.
Qed.

(** Beyond the converted list [get_converted_tensor] fails in two ways: an
    index at or above the length fails the assertion, an index below minus
    the length passes it and raises [IndexError] on the subscript. *)
Theorem handle_out_of_range (a : ToXlaTensorArena) (converted : list pyval)
    (i : Z) :
  _converted_tensors a = Some converted ->
  ((Z.of_nat (length converted) <= i)%Z ->
     get_converted_tensor (VIndex i) a = (Raise AssertionError, a))
  /\ ((i < - Z.of_nat (length converted))%Z ->
        get_converted_tensor (VIndex i) a = (Raise IndexError, a)).
Proof.
  intros Hc. unfold get_converted_tensor. rewrite Hc. split; intros Hi.
  - assert (E : (i <? Z.of_nat (length converted))%Z = false)
      by (apply Z.ltb_ge; lia).
    now rewrite E.
  - assert (E : (i <? Z.of_nat (length converted))%Z = true)
      by (apply Z.ltb_lt; lia).
    rewrite E. unfold py_getitem.
    assert (E0 : (0 <=? i)%Z = false) by (apply Z.leb_gt; lia).
    assert (E1 : (- Z.of_nat (length converted) <=? i)%Z = false)
      by (apply Z.leb_gt; lia).
    now rewrite E0, E1.
Qed.

Lemma handle_out_of_range_witness :
  get_converted_tensor (VIndex 1) sample_converted_arena
  = (Raise AssertionError, sample_converted_arena)
  /\ get_converted_tensor (VIndex (-2)) sample_converted_arena
     = (Raise IndexError, sample_converted_arena).
Proof.
  split.
  - apply (@handle_out_of_range sample_converted_arena [sample_x0] 1 eq_refl).
    simpl. lia.
  - apply (@handle_out_of_range sample_converted_arena [sample_x0] (-2)
             eq_refl).
    simpl. lia.
Defined.



(** The rehydrator only reads the arena: whatever it is given and whether
    it returns or raises, the arena is left as it was. *)
Theorem rehydrator_reads_only (v : pyval) (a : ToXlaTensorArena) :
  snd (_replace_tensors v a) = a.
Proof. apply replace_keeps_arena. Qed.

Lemma replace_loop_handle_free (a : ToXlaTensorArena) (l : list pyval) :
  Forall (fun x => has_handle x = false ->
                   _replace_tensors x a = (Ok (as_tuples x), a)) l ->
  existsb has_handle l = false ->
  forall acc,
    replace_loop _replace_tensors l acc a
    = (Ok (VTuple (acc ++ map as_tuples l)), a).
Proof.
  induction 1 as [|x l Hx _ IHl]; intros Hh acc; simpl.
  - unfold ret. now rewrite app_nil_r.
  - simpl in Hh. apply orb_false_elim in Hh as [H1 H2].
    rewrite (bind_ok _ _ _ (Hx H1)), (IHl H2).
    now rewrite <- app_assoc.
Qed.

(** A structure without handles is rehydrated on any arena, converted or
    not: the result is the structure with its lists and tuples rebuilt as
    tuples, and rehydrating the result again changes nothing. *)
Theorem rehydrate_handle_free (v : pyval) (a : ToXlaTensorArena) :
  has_handle v = false ->
  _replace_tensors v a = (Ok (as_tuples v), a)
  /\ _replace_tensors (as_tuples v) a = (Ok (as_tuples v), a).
Proof.
  assert (Hfree : forall w, has_handle w = false ->
                            _replace_tensors w a = (Ok (as_tuples w), a)).
  { induction w as [w l Hl IH | w Hw] using pyval_seq_ind; intros Hh.
    - rewrite replace_sequence with (l := l) by exact Hl.
      assert (Hh' : existsb has_handle l = false)
        by (destruct w; try discriminate; now injection Hl as ->).
      rewrite (replace_loop_handle_free IH Hh' []).
      destruct w; try discriminate; now injection Hl as ->.
    - destruct w; try discriminate; reflexivity. }
  assert (Hidem : forall w, has_handle w = false ->
                            has_handle (as_tuples w) = false
                            /\ as_tuples (as_tuples w) = as_tuples w).
  { induction w as [w l Hl IH | w Hw] using pyval_seq_ind; intros Hh.
    - assert (Hh' : existsb has_handle l = false)
        by (destruct w; try discriminate; now injection Hl as ->).
      assert (G : existsb has_handle (map as_tuples l) = false
                  /\ map as_tuples (map as_tuples l) = map as_tuples l).
      { clear Hl. induction IH as [|x l Hx _ IHl]; simpl in *; [auto|].
        apply orb_false_elim in Hh' as [H1 H2].
        destruct (Hx H1) as [-> ->]. destruct (IHl H2) as [-> ->]. auto. }
      destruct G as [G1 G2].
      destruct w; try discriminate; injection Hl as ->; simpl;
        now rewrite G1, G2.
    - destruct w; try discriminate; auto. }
  intros Hh. split; [now apply Hfree|].
  destruct (Hidem v Hh) as [H1 H2].
  rewrite (Hfree _ H1). now rewrite H2.
Qed.

Lemma rehydrate_handle_free_witness :
  _replace_tensors (VList [sample_t0; VList []; sample_mapping])
                   (new_arena sample_to_xla)
  = (Ok (VTuple [sample_t0; VTuple []; sample_mapping]),
     new_arena sample_to_xla).
Proof.
  apply (@rehydrate_handle_free
           (VList [sample_t0; VList []; sample_mapping])
           (new_arena sample_to_xla) eq_refl).
Defined.

Lemma replace_loop_unconverted (a : ToXlaTensorArena) (l : list pyval) :
  Forall (fun x => _replace_tensors x a
                   = if has_handle x then (Raise AssertionError, a)
                     else (Ok (as_tuples x), a)) l ->
  forall acc,
    replace_loop _replace_tensors l acc a
    = if existsb has_handle l then (Raise AssertionError, a)
      else (Ok (VTuple (acc ++ map as_tuples l)), a).
Proof.
  induction 1 as [|x l Hx _ IHl]; intros acc; simpl.
  - unfold ret. now rewrite app_nil_r.
  - unfold bind. rewrite Hx. destruct (has_handle x); simpl; [reflexivity|].
    rewrite IHl. destruct (existsb has_handle l); [reflexivity|].
    now rewrite <- app_assoc.
Qed.

(** Rehydrating before any conversion has produced a list: the rehydrator
    raises [AssertionError] exactly when the structure holds a handle, and
    otherwise returns the structure rebuilt with tuples. *)
Theorem rehydrate_before_convert (v : pyval) (a : ToXlaTensorArena) :
  _converted_tensors a = None ->
  _replace_tensors v a
  = if has_handle v then (Raise AssertionError, a)
    else (Ok (as_tuples v), a).
Proof.
  intros Hc. revert v.
  induction v as [v l Hl IH | v Hv] using pyval_seq_ind.
  - rewrite replace_sequence with (l := l) by exact Hl.
    rewrite (@replace_loop_unconverted a l IH []).
    destruct v; try discriminate; now injection Hl as ->.
  - destruct v; try discriminate; try reflexivity.
    simpl. unfold get_converted_tensor. now rewrite Hc.
Qed.

Lemma rehydrate_before_convert_witness :
  _replace_tensors (VTuple [VTuple [handle 0]])
                   (extend (new_arena sample_to_xla) [sample_t0] [VStr ""])
  = (Raise AssertionError,
     extend (new_arena sample_to_xla) [sample_t0] [VStr ""]).
Proof.
  apply (@rehydrate_before_convert (VTuple [VTuple [handle 0]])
           (extend (new_arena sample_to_xla) [sample_t0] [VStr ""]) eq_refl).
Defined.

Lemma flat_map_nil_inv (A B : Type) (f : A -> list B) (x : A) (l : list A) :
  flat_map f (x :: l) = [] -> f x = [] /\ flat_map f l = [].
Proof. simpl. apply app_eq_nil. Qed.

Lemma collect_loop_no_leaves ct (l : list pyval) :
  Forall (fun x => leaves_of ct x = [] ->
                   forall device a,
                     _collect_tensors ct x None device a
                     = (Ok (relabel ct handle x (length (_tensors a))), a)) l ->
  flat_map (leaves_of ct) l = [] ->
  forall i device acc a,
    collect_loop (fun input d => _collect_tensors ct input None d)
                 None l i device acc a
    = (Ok (VTuple (acc ++ relabel_list ct handle l (length (_tensors a)))),
       a).
Proof.
  induction 1 as [|x l Hx _ IHl]; intros Hnil i device acc a; simpl.
  - unfold ret. now rewrite app_nil_r.
  - apply flat_map_nil_inv in Hnil as [H1 H2].
    unfold bind at 1. unfold ret at 1.
    rewrite (bind_ok _ _ _ (Hx H1 device a)).
    rewrite (IHl H2), H1. simpl. rewrite Nat.add_0_r.
    now rewrite <- app_assoc.
Qed.

(** A structure without leaves goes through the walker on any arena. *)
Lemma collect_no_leaves ct :
  forall v, leaves_of ct v = [] ->
            forall device a,
              _collect_tensors ct v None device a
              = (Ok (relabel ct handle v (length (_tensors a))), a).
Proof.
  induction v as [v l Hl IH | v Hv] using pyval_seq_ind;
    intros Hnil device a; destruct (pytype_eqb (type_ v) ct) eqn:E.
  - rewrite leaves_of_leaf in Hnil by exact E. discriminate.
  - rewrite collect_sequence with (l := l) by assumption.
    rewrite leaves_of_sequence with (l := l) in Hnil by assumption.
    rewrite (@collect_loop_no_leaves ct l IH Hnil).
    now rewrite relabel_sequence with (l := l).
  - rewrite leaves_of_leaf in Hnil by exact E. discriminate.
  - now rewrite collect_atom, relabel_atom.
Qed.

(** On an arena that does not take the collected type, the walker stops at
    the first leaf. *)
Lemma collect_rejected ct :
  forall v, leaves_of ct v <> [] ->
            forall device a,
              ~ arena_accepts ct a ->
              _collect_tensors ct v None device a
              = (Raise AssertionError, a).
Proof.
  induction v as [v l Hl IH | v Hv] using pyval_seq_ind;
    intros Hne device a Ha; destruct (pytype_eqb (type_ v) ct) eqn:E.
  - rewrite collect_leaf by exact E. unfold arena_accepts in Ha.
    destruct (_tensors a) as [|t0 ts] eqn:Et; [now elim Ha|].
    apply add_rejected with t0 ts; [exact Et|].
    apply pytype_eqb_eq in E. rewrite E.
    now destruct (pytype_eqb (type_ t0) ct).
  - rewrite collect_sequence with (l := l) by assumption.
    rewrite leaves_of_sequence with (l := l) in Hne by assumption.
    clear Hl E. generalize (@nil pyval) as acc. generalize 0%nat as i.
    revert device.
    induction IH as [|x l Hx _ IHl]; intros device i acc; simpl in *;
      [now elim Hne|].
    unfold bind at 1. unfold ret at 1.
    destruct (leaves_of ct x) as [|b bs] eqn:Ex.
    + rewrite (bind_ok _ _ _ (collect_no_leaves ct x Ex device a)).
      now apply IHl.
    + unfold bind. rewrite Hx; [reflexivity | discriminate | exact Ha].
  - rewrite collect_leaf by exact E. unfold arena_accepts in Ha.
    destruct (_tensors a) as [|t0 ts] eqn:Et; [now elim Ha|].
    apply add_rejected with t0 ts; [exact Et|].
    apply pytype_eqb_eq in E. rewrite E.
    now destruct (pytype_eqb (type_ t0) ct).
  - rewrite leaves_of_atom in Hne by assumption. now elim Hne.
Qed.

(** The walker without a device list fails in one case only.  When the
    structure holds a leaf and the first buffer of the arena is of another
    type than the collected one, it raises [AssertionError] at the first
    leaf and the arena is left as it was.  In every other case it returns
    the mirrored structure, and the arena has grown by the leaves, in
    collection order, each with the tag passed. *)
Theorem walker_outcome (ct : pytype) (S : pyval) (device : pyval)
    (a : ToXlaTensorArena) :
  (arena_accepts ct a \/ leaves_of ct S = [] ->
     _collect_tensors ct S None device a
     = (Ok (relabel ct handle S (length (_tensors a))),
        extend a (leaves_of ct S) (map (fun _ => device) (leaves_of ct S))))
  /\ (~ arena_accepts ct a -> leaves_of ct S <> [] ->
        _collect_tensors ct S None device a = (Raise AssertionError, a)).
Proof.
  split.
  - intros [Ha | Hnil].
    + now apply collect_spec.
    + rewrite (collect_no_leaves ct S Hnil), Hnil. simpl.
      now rewrite extend_nil.
  - intros Ha Hne. now apply collect_rejected.
Qed.

Lemma walker_outcome_witness :
  _collect_tensors (TyBuffer TorchTensor)
                   (VList [VList []; VTuple [sample_t0]; sample_t1]) None
                   (VStr "") sample_converted_arena
  = (Ok (VTuple [VTuple []; VTuple [handle 1]; handle 2]),
     extend sample_converted_arena [sample_t0; sample_t1]
            [VStr ""; VStr ""])
  /\ _collect_tensors (TyBuffer XLATensor)
                      (VList [VList []; VTuple [sample_x0]]) None
                      (VStr "") sample_converted_arena
     = (Raise AssertionError, sample_converted_arena).
Proof.
  split.
  - destruct (@walker_outcome (TyBuffer TorchTensor)
                (VList [VList []; VTuple [sample_t0]; sample_t1])
                (VStr "") sample_converted_arena) as [H _].
    apply H. left. reflexivity.
  - destruct (@walker_outcome (TyBuffer XLATensor)
                (VList [VList []; VTuple [sample_x0]])
                (VStr "") sample_converted_arena) as [_ H].
    apply H; [intros Hacc; discriminate Hacc | discriminate].
Defined.

(** The relabelled structure holds, at each position of the structure, the
    relabelling of what the structure holds there. *)
Lemma subterm_relabel_at c (f : nat -> pyval) :
  forall path v n x,
    subterm v path = Some x ->
    subterm (relabel (TyBuffer c) f v n) path
    = Some (relabel (TyBuffer c) f x
              (n + leaf_rank (TyBuffer c) v path)%nat).
Proof.
  induction path as [|i path IH]; intros v n x Hx.
  - simpl in Hx. injection Hx as ->. simpl. now rewrite Nat.add_0_r.
  - assert (Hv : exists l y, sequence_items v = Some l
                             /\ nth_error l i = Some y
                             /\ subterm y path = Some x).
    { destruct v; try discriminate; simpl in Hx;
        destruct (nth_error l i) as [y|] eqn:Ey; try discriminate;
        exists l, y; auto. }
    destruct Hv as (l & y & Hl & Hy & Hsub).
    assert (Hty : pytype_eqb (type_ v) (TyBuffer c) = false)
      by (destruct v; try discriminate; reflexivity).
    rewrite relabel_sequence with (l := l) by assumption.
    simpl subterm at 1.
    rewrite (nth_error_relabel_list _ f _ _ n Hy).
    rewrite (IH y _ x Hsub). do 2 f_equal.
    destruct v; try discriminate; injection Hl as ->; simpl;
      rewrite (nth_error_nth _ _ VNone Hy); lia.
Qed.

(** Handles are issued in traversal order, depth first and left to right:
    in the mirrored structure the leaf at a position is replaced by the
    handle whose index is the number of buffers the arena held plus the
    number of leaves that come before the position; a value the walker
    passes over is at its position unchanged.  Neither the tag nor
    [convert_fn] has a part in it. *)
Theorem handles_in_traversal_order (c : bufclass) (S : pyval)
    (device : pyval) (a : ToXlaTensorArena) :
  arena_accepts (TyBuffer c) a ->
  exists mirrored a1,
    _collect_tensors (TyBuffer c) S None device a = (Ok mirrored, a1)
    /\ forall path x,
         subterm S path = Some x ->
         sequence_items x = None ->
         subterm mirrored path
         = Some (if pytype_eqb (type_ x) (TyBuffer c)
                 then VIndex (Z.of_nat (length (_tensors a)
                                        + leaf_rank (TyBuffer c) S path))
                 else x).
Proof.
  intros Ha.
  exists (relabel (TyBuffer c) handle S (length (_tensors a))).
  exists (extend a (leaves_of (TyBuffer c) S)
                 (map (fun _ => device) (leaves_of (TyBuffer c) S))).
  split; [now apply collect_spec|].
  intros path x Hx Hatom.
  rewrite (subterm_relabel_at c handle path S _ Hx).
  destruct (pytype_eqb (type_ x) (TyBuffer c)) eqn:E.
  - now rewrite relabel_leaf.
  - now rewrite relabel_atom.
Qed.

Lemma handles_in_traversal_order_witness :
  exists mirrored a1,
    _collect_tensors (TyBuffer TorchTensor) sample_structure None VNone
                     sample_converted_arena = (Ok mirrored, a1)
    /\ subterm mirrored [1; 1; 0]%nat = Some (VIndex 3).
Proof.
  destruct (@handles_in_traversal_order TorchTensor sample_structure VNone
              sample_converted_arena eq_refl)
    as (mirrored & a1 & H1 & H2).
  exists mirrored, a1. split; [exact H1|].
  apply (H2 [1; 1; 0]%nat sample_t2 eq_refl eq_refl).
Defined.

(** Collecting, converting and rehydrating, in closed form. *)
Lemma round_trip_closed_form (ct : pytype) (S device : pyval)
    (a0 : ToXlaTensorArena) :
  let tagged := map (fun _ => device) (leaves_of ct S) in
  let converted :=
    convert_fn a0 (_tensors a0 ++ leaves_of ct S)
               (_devices a0 ++ recorded tagged) in
  no_stray_handle ct S = true ->
  arena_accepts ct a0 ->
  length converted = length (_tensors a0 ++ leaves_of ct S) ->
  let a1 := extend a0 (leaves_of ct S) tagged in
  _collect_tensors ct S None device a0
  = (Ok (relabel ct handle S (length (_tensors a0))), a1)
  /\ convert a1 = (Ok tt, snd (convert a1))
  /\ _replace_tensors (relabel ct handle S (length (_tensors a0)))
                      (snd (convert a1))
     = (Ok (relabel ct (fun k => nth k converted VNone) S
                    (length (_tensors a0))),
        snd (convert a1)).
Proof.
  intros tagged converted Hns Ha Hlen a1.
  split; [now apply collect_spec|].
  split; [unfold convert; destruct (_tensors a1); reflexivity|].
  apply replace_spec; [exact Hns|].
  intros k Hk. apply get_converted_handle.
  - rewrite convert_converted; [reflexivity|].
    intros Et. apply (f_equal (@length pyval)) in Et. unfold a1 in Et.
    rewrite extend_tensors_length in Et. simpl in Et. lia.
  - fold converted. rewrite Hlen, length_app. lia.
Qed.

(** The round trip keeps what is not a buffer.  Let the structure hold,
    besides lists, tuples and buffers of the collected class, any other
    values but handles.  Then collecting, converting and rehydrating
    succeed, and every such value -- a scalar, a string, a mapping, a set,
    a buffer of another class -- is in the rehydrated structure at the
    position it had. *)
Theorem round_trip_keeps_passed_values (c : bufclass) (S device : pyval)
    (a0 : ToXlaTensorArena) :
  let ct := TyBuffer c in
  let tagged := map (fun _ => device) (leaves_of ct S) in
  let converted :=
    convert_fn a0 (_tensors a0 ++ leaves_of ct S)
               (_devices a0 ++ filter is_not_None tagged) in
  no_stray_handle ct S = true ->
  arena_accepts ct a0 ->
  length converted = length (_tensors a0 ++ leaves_of ct S) ->
  exists mirrored a1 a2 r,
    _collect_tensors ct S None device a0 = (Ok mirrored, a1)
    /\ convert a1 = (Ok tt, a2)
    /\ _replace_tensors mirrored a2 = (Ok r, a2)
    /\ forall path x,
         subterm S path = Some x ->
         sequence_items x = None ->
         type_ x <> ct ->
         subterm r path = Some x.
Proof.
  intros ct tagged converted Hns Ha Hlen.
  destruct (@round_trip_closed_form ct S device a0 Hns Ha Hlen)
    as (H1 & H2 & H3).
  eexists. eexists. eexists. eexists.
  split; [exact H1|]. split; [exact H2|]. split; [exact H3|].
  intros path x Hx Hatom Hty.
  rewrite (subterm_relabel_at c _ path S _ Hx).
  rewrite relabel_atom; [reflexivity | exact Hatom |].
  destruct (pytype_eqb (type_ x) ct) eqn:E; [|exact E].
  apply pytype_eqb_eq in E. contradiction.
Qed.

Lemma round_trip_keeps_passed_values_witness :
  exists mirrored a1 a2 r,
    _collect_tensors (TyBuffer TorchTensor)
                     (VList [sample_t0; VTuple [VInt 7; sample_mapping]])
                     None (VStr "") (new_arena sample_to_xla)
    = (Ok mirrored, a1)
    /\ convert a1 = (Ok tt, a2)
    /\ _replace_tensors mirrored a2 = (Ok r, a2)
    /\ subterm r [1; 1]%nat = Some sample_mapping.
Proof.
  destruct (@round_trip_keeps_passed_values TorchTensor
              (VList [sample_t0; VTuple [VInt 7; sample_mapping]])
              (VStr "") (new_arena sample_to_xla) eq_refl I eq_refl)
    as (mirrored & a1 & a2 & r & H1 & H2 & H3 & H4).
  exists mirrored, a1, a2, r.
  split; [exact H1|]. split; [exact H2|]. split; [exact H3|].
  apply (H4 [1; 1]%nat sample_mapping eq_refl eq_refl).
  discriminate.
Defined.

(* ================================================================== *)
(** ** Further properties of the optimizer-state collector *)

Lemma grows_refl (st : OptimizerState) : grows st st.
Proof.
  exists [], []. rewrite !app_nil_r. repeat split; auto.
Qed.

Lemma grows_trans (st1 st2 st3 : OptimizerState) :
  grows st1 st2 -> grows st2 st3 -> grows st1 st3.
Proof.
  intros (ts & gs & Ht & Hg & Hl & Hts & Hgs)
         (ts' & gs' & Ht' & Hg' & Hl' & Hts' & Hgs').
  exists (ts ++ ts'), (gs ++ gs').
  rewrite Ht', Ht, Hg', Hg, !app_assoc, !length_app.
  repeat split; try lia; apply Forall_app; auto.
Qed.

Lemma for_each_grows
    (f : pyval -> OptimizerState -> result OptimizerState) :
  (forall x st st', f x st = Ok st' -> grows st st') ->
  forall l st st', for_each f l st = Ok st' -> grows st st'.
Proof.
  intros Hf. induction l as [|x l IHl]; intros st st' H; simpl in H.
  - injection H as <-. apply grows_refl.
  - destruct (f x st) as [st1|e] eqn:E; [|discriminate].
    apply grows_trans with st1; [now apply Hf with x | now apply IHl].
Qed.

Lemma for_each_item_grows
    (f : pyval -> OptimizerState -> result OptimizerState) :
  (forall x st st', f x st = Ok st' -> grows st st') ->
  forall l st st', for_each_item f l st = Ok st' -> grows st st'.
Proof.
  intros Hf. induction l as [|[k v] l IHl]; intros st st' H; simpl in H.
  - injection H as <-. apply grows_refl.
  - destruct (f k st) as [st1|e] eqn:E1; [|discriminate].
    destruct (f v st1) as [st2|e] eqn:E2; [|discriminate].
    apply grows_trans with st1; [now apply Hf with k|].
    apply grows_trans with st2; [now apply Hf with v | now apply IHl].
Qed.

Lemma fetch_add_grows (optimizer : Optimizer) :
  forall depth p st st',
    fetch_add depth optimizer p st = Ok st' -> grows st st'.
Proof.
  induction depth as [|depth IH]; intros p st st' H; [discriminate|].
  destruct p; simpl in H;
    try (injection H as <-; apply grows_refl);
    try (now apply (@for_each_grows (fetch_add depth optimizer) IH) in H);
    try (now apply (@for_each_item_grows (fetch_add depth optimizer) IH)
           in H).
  destruct (tensor_cls t); try (injection H as <-; apply grows_refl).
  - set (st2 := match tensor_grad t with Some g => _ | None => _ end) in H.
    assert (G : grows st st2).
    { unfold st2. destruct (tensor_grad t) as [g|].
      - exists [VTensor (data t)], [VTensor (data g)]. simpl.
        repeat split; auto; repeat constructor; eexists; reflexivity.
      - exists [VTensor (data t)], []. simpl.
        rewrite app_nil_r.
        repeat split; auto; repeat constructor; eexists; reflexivity. }
    destruct (truthy (state_get (state optimizer) t)).
    + apply grows_trans with st2; [exact G | now apply IH in H].
    + now injection H as <-.
  - set (st2 := match tensor_grad t with Some g => _ | None => _ end) in H.
    assert (G : grows st st2).
    { unfold st2. destruct (tensor_grad t) as [g|].
      - exists [VTensor (data t)], [VTensor (data g)]. simpl.
        repeat split; auto; repeat constructor; eexists; reflexivity.
      - exists [VTensor (data t)], []. simpl.
        rewrite app_nil_r.
        repeat split; auto; repeat constructor; eexists; reflexivity. }
    destruct (truthy (state_get (state optimizer) t)).
    + apply grows_trans with st2; [exact G | now apply IH in H].
    + now injection H as <-.
Qed.

(** The collector never returns more gradients than tensors: a gradient is
    only appended together with the tensor that carries it.  This holds for
    every optimizer object for which it returns. *)
Theorem gradients_never_outnumber_tensors (limit : nat)
    (optimizer : Optimizer) (st : OptimizerState) :
  _fetch_optimizer_state limit optimizer = Ok st ->
  (length (gradients st) <= length (tensors st))%nat.
Proof.
  intros H. apply fetch_add_grows in H as (ts & gs & Ht & Hg & Hl & _).
  simpl in Ht, Hg. now rewrite Ht, Hg.
Qed.

Lemma gradients_never_outnumber_tensors_witness :
  (length [VTensor (data sample_g0); VTensor (data sample_g1)]
   <= length [VTensor (data sample_p0); VTensor (data sample_m0);
              VTensor (data sample_p1); VTensor (data sample_m1)])%nat.
Proof.
  apply (@gradients_never_outnumber_tensors 1000 sample_optimizer
           (mkOptimizerState
              [VTensor (data sample_p0); VTensor (data sample_m0);
               VTensor (data sample_p1); VTensor (data sample_m1)]
              [VTensor (data sample_g0); VTensor (data sample_g1)])).
  vm_compute. reflexivity.
Defined.



Lemma for_each_mono
    (f g : pyval -> OptimizerState -> result OptimizerState) :
  (forall x st st', f x st = Ok st' -> g x st = Ok st') ->
  forall l st st', for_each f l st = Ok st' -> for_each g l st = Ok st'.
Proof.
  intros Hfg. induction l as [|x l IHl]; intros st st' H; simpl in *.
  - exact H.
  - destruct (f x st) as [st1|e] eqn:E; [|discriminate].
    rewrite (Hfg _ _ _ E). now apply IHl.
Qed.

Lemma for_each_item_mono
    (f g : pyval -> OptimizerState -> result OptimizerState) :
  (forall x st st', f x st = Ok st' -> g x st = Ok st') ->
  forall l st st',
    for_each_item f l st = Ok st' -> for_each_item g l st = Ok st'.
Proof.
  intros Hfg. induction l as [|[k v] l IHl]; intros st st' H; simpl in *.
  - exact H.
  - destruct (f k st) as [st1|e] eqn:E1; [|discriminate].
    destruct (f v st1) as [st2|e] eqn:E2; [|discriminate].
    rewrite (Hfg _ _ _ E1), (Hfg _ _ _ E2). now apply IHl.
Qed.

Lemma fetch_add_deeper (optimizer : Optimizer) :
  forall depth p st st',
    fetch_add depth optimizer p st = Ok st' ->
    fetch_add (S depth) optimizer p st = Ok st'.
Proof.
  induction depth as [|depth IH]; intros p st st' H; [discriminate|].
  destruct p;
    try exact H;
    try (exact (@for_each_mono (fetch_add depth optimizer)
                  (fetch_add (S depth) optimizer) IH l st st' H));
    try (exact (@for_each_item_mono (fetch_add depth optimizer)
                  (fetch_add (S depth) optimizer) IH items st st' H)).
  change (fetch_add (S depth) optimizer (VTensor t) st)
    with (if isinstance_torch_Tensor (VTensor t)
          then
            let st1 := mkOptimizerState (tensors st ++ [VTensor (data t)])
                                        (gradients st) in
            let st2 := match tensor_grad t with
                       | Some g =>
                           mkOptimizerState (tensors st1)
                             (gradients st1 ++ [VTensor (data g)])
                       | None => st1
                       end in
            if truthy (state_get (state optimizer) t)
            then fetch_add depth optimizer
                           (state_get (state optimizer) t) st2
            else Ok st2
          else Ok st) in H.
  change (fetch_add (S (S depth)) optimizer (VTensor t) st)
    with (if isinstance_torch_Tensor (VTensor t)
          then
            let st1 := mkOptimizerState (tensors st ++ [VTensor (data t)])
                                        (gradients st) in
            let st2 := match tensor_grad t with
                       | Some g =>
                           mkOptimizerState (tensors st1)
                             (gradients st1 ++ [VTensor (data g)])
                       | None => st1
                       end in
            if truthy (state_get (state optimizer) t)
            then fetch_add (S depth) optimizer
                           (state_get (state optimizer) t) st2
            else Ok st2
          else Ok st).
  destruct (isinstance_torch_Tensor (VTensor t)); [|exact H].
  cbv zeta in *.
  destruct (truthy (state_get (state optimizer) t)); [|exact H].
  now apply IH.
Qed.

(** The recursion limit decides only whether the collector returns: once
    it returns under a limit, it returns the same state under every higher
    limit. *)
Theorem collector_result_independent_of_limit (limit limit' : nat)
    (optimizer : Optimizer) (st : OptimizerState) :
  (limit <= limit')%nat ->
  _fetch_optimizer_state limit optimizer = Ok st ->
  _fetch_optimizer_state limit' optimizer = Ok st.
Proof.
  unfold _fetch_optimizer_state. intros Hle H.
  induction Hle as [|m Hle IH]; [exact H|].
  now apply fetch_add_deeper.
Qed.

Lemma collector_result_independent_of_limit_witness :
  _fetch_optimizer_state 1000 sample_optimizer
  = Ok (mkOptimizerState
          [VTensor (data sample_p0); VTensor (data sample_m0);
           VTensor (data sample_p1); VTensor (data sample_m1)]
          [VTensor (data sample_g0); VTensor (data sample_g1)]).
Proof.
  apply (@collector_result_independent_of_limit 7 1000 sample_optimizer).
  - lia.
  - reflexivity.
Defined.

(** A parameter whose state entry holds the parameter itself sends the
    collector round in a circle: under every recursion limit it ends in
    [RecursionError]. *)
Theorem cyclic_state_exhausts_recursion (optimizer : Optimizer)
    (p : tensor) (limit : nat) (st : OptimizerState) :
  isinstance_torch_Tensor (VTensor p) = true ->
  state_get (state optimizer) p = VList [VTensor p] ->
  fetch_add limit optimizer (VTensor p) st = Raise RecursionError
  /\ fetch_add limit optimizer (VList [VTensor p]) st = Raise RecursionError.
Proof.
  intros Hp Hs. revert st.
  induction limit as [|limit IH]; intros st; [split; reflexivity|].
  split.
  - change (fetch_add (S limit) optimizer (VTensor p) st)
      with (if isinstance_torch_Tensor (VTensor p)
            then
              let st1 := mkOptimizerState (tensors st ++ [VTensor (data p)])
                                          (gradients st) in
              let st2 := match tensor_grad p with
                         | Some g =>
                             mkOptimizerState (tensors st1)
                               (gradients st1 ++ [VTensor (data g)])
                         | None => st1
                         end in
              if truthy (state_get (state optimizer) p)
              then fetch_add limit optimizer
                             (state_get (state optimizer) p) st2
              else Ok st2
            else Ok st).
    rewrite Hp, Hs. cbv zeta. simpl truthy. cbv iota. apply IH.
  - rewrite fetch_add_list. simpl.
    now destruct (IH st) as [-> _].
Qed.

Lemma cyclic_state_exhausts_recursion_witness :
  _fetch_optimizer_state 1000
    (mkOptimizer (VList [VTensor sample_p0])
                 [(VTensor sample_p0, VList [VTensor sample_p0])])
  = Raise RecursionError.
Proof.
  apply (@cyclic_state_exhausts_recursion
           (mkOptimizer (VList [VTensor sample_p0])
                        [(VTensor sample_p0, VList [VTensor sample_p0])])
           sample_p0 1000 (mkOptimizerState [] []) eq_refl eq_refl).
Defined.

Lemma flat_map_gradient_of_tensors (ps : list tensor) :
  flat_map (fun x => match x with
                     | VTensor p => gradient_of p
                     | _ => []
                     end) (map VTensor ps)
  = flat_map gradient_of ps.
Proof.
  induction ps as [|p ps IH]; simpl; [reflexivity | now rewrite IH].
Qed.

(** The collector on the list of the parameters of a group. *)
Lemma fetch_add_params (pms : list (tensor * tensor)) (snapshot : pyval)
    (depth : nat) (ps : list tensor) (st : OptimizerState) :
  Forall (param_with_momentum pms) pms ->
  Forall (fun p => isinstance_torch_Tensor (VTensor p) = true) ps ->
  exists st',
    for_each (fetch_add (S (S (S depth)))
                        (mkOptimizer snapshot (state_items pms)))
             (map VTensor ps) st = Ok st'
    /\ gradients st' = gradients st ++ flat_map gradient_of ps.
Proof.
  intros Hwf Hps.
  destruct (@for_each_gradients
              (fetch_add (S (S (S depth)))
                         (mkOptimizer snapshot (state_items pms)))
              (fun x => match x with
                        | VTensor p => gradient_of p
                        | _ => []
                        end)
              (map VTensor ps)) with (st := st) as (st' & Hrun & Hg).
  - apply Forall_forall. intros x Hx st0.
    apply in_map_iff in Hx as (p & <- & Hp).
    apply fetch_add_param; [exact Hwf|].
    rewrite Forall_forall in Hps. now apply Hps.
  - exists st'. split; [exact Hrun|].
    now rewrite Hg, flat_map_gradient_of_tensors.
Qed.

(** The collector on the parameter groups of a snapshot. *)
Lemma fetch_add_param_groups (pms : list (tensor * tensor))
    (snapshot : pyval) (depth : nat) (ps : list tensor)
    (st : OptimizerState) :
  Forall (param_with_momentum pms) pms ->
  Forall (fun p => isinstance_torch_Tensor (VTensor p) = true) ps ->
  exists st',
    fetch_add (S (S (S (S (S (S depth))))))
              (mkOptimizer snapshot (state_items pms))
              (param_groups ps) st = Ok st'
    /\ gradients st' = gradients st ++ flat_map gradient_of ps.
Proof.
  intros Hwf Hps. unfold param_groups.
  rewrite fetch_add_list. cbn [for_each].
  rewrite fetch_add_dict. cbn [for_each_item].
  rewrite fetch_add_str, fetch_add_list.
  destruct (@fetch_add_params pms snapshot depth ps st Hwf Hps)
    as (st' & -> & Hg).
  now exists st'.
Qed.

(** Before the optimizer has stepped its state mapping is empty, and on the
    snapshot that holds this empty mapping next to the parameter groups the
    collector returns the gradient of every parameter once, in the order of
    the parameters; a parameter without gradient contributes none. *)
Theorem collector_before_first_step (ps : list tensor) (limit : nat) :
  (7 <= limit)%nat ->
  Forall (fun p => isinstance_torch_Tensor (VTensor p) = true) ps ->
  exists st,
    _fetch_optimizer_state limit (mkOptimizer (fresh_snapshot ps) []) = Ok st
    /\ gradients st = flat_map gradient_of ps.
Proof.
  intros Hlimit Hps.
  replace limit with (S (S (S (S (S (S (S (limit - 7)))))))) by lia.
  unfold _fetch_optimizer_state, fresh_snapshot. cbn [getstate].
  rewrite fetch_add_dict. cbn [for_each_item].
  rewrite fetch_add_str, fetch_add_dict. cbn [for_each_item].
  rewrite fetch_add_str.
  destruct (@fetch_add_param_groups [] (fresh_snapshot ps) (limit - 7) ps
              (mkOptimizerState [] []) (Forall_nil _) Hps)
    as (st & Hrun & Hg).
  unfold fresh_snapshot, state_items in Hrun. simpl map in Hrun.
  rewrite Hrun. now exists st.
Qed.

Lemma collector_before_first_step_witness :
  exists st,
    _fetch_optimizer_state 1000
      (mkOptimizer (fresh_snapshot [sample_p0; sample_p1]) []) = Ok st
    /\ gradients st = [VTensor (data sample_g0); VTensor (data sample_g1)].
Proof.
  apply (@collector_before_first_step [sample_p0; sample_p1] 1000).
  - lia.
  - apply Forall_cons; [reflexivity|].
    apply Forall_cons; [reflexivity | apply Forall_nil].
Defined.

(** The collector on a momentum state: the buffer adds no gradient. *)
Lemma fetch_add_momentum_state (pms : list (tensor * tensor))
    (snapshot : pyval) (depth : nat) (pm : tensor * tensor)
    (st : OptimizerState) :
  param_with_momentum pms pm ->
  exists st',
    fetch_add (S (S depth)) (mkOptimizer snapshot (state_items pms))
              (momentum_state (snd pm)) st = Ok st'
    /\ gradients st' = gradients st.
Proof.
  intros (_ & Hg & Hid). unfold momentum_state.
  rewrite fetch_add_dict. cbn [for_each_item]. rewrite fetch_add_str.
  cbn [fetch_add isinstance_torch_Tensor state].
  rewrite (state_get_absent pms (snd pm) Hid), Hg. cbn [truthy].
  destruct (tensor_cls (snd pm)); eexists; split; reflexivity.
Qed.

(** The collector on the items of the state mapping. *)
Lemma fetch_add_state_items (pms : list (tensor * tensor))
    (snapshot : pyval) (depth : nat) :
  Forall (param_with_momentum pms) pms ->
  forall items st,
    incl items pms ->
    exists st',
      for_each_item (fetch_add (S (S (S depth)))
                               (mkOptimizer snapshot (state_items pms)))
                    (state_items items) st = Ok st'
      /\ gradients st'
         = gradients st ++ flat_map (fun pm => gradient_of (fst pm)) items.
Proof.
  intros Hwf. induction items as [|pm items IH]; intros st Hincl.
  - exists st. simpl. now rewrite app_nil_r.
  - assert (Hpm : param_with_momentum pms pm).
    { rewrite Forall_forall in Hwf. apply Hwf. apply Hincl. now left. }
    change (state_items (pm :: items))
      with ((VTensor (fst pm), momentum_state (snd pm)) :: state_items items).
    cbn [for_each_item].
    destruct (@fetch_add_param pms snapshot depth (fst pm) st Hwf
                ltac:(now destruct Hpm)) as (st1 & -> & H1).
    destruct (@fetch_add_momentum_state pms snapshot (S depth) pm st1 Hpm)
      as (st2 & -> & H2).
    destruct (IH st2) as (st3 & Hrun & H3).
    { intros x Hx. apply Hincl. now right. }
    rewrite Hrun.
    exists st3. split; [reflexivity|].
    rewrite H3, H2, H1. simpl. now rewrite app_assoc.
Qed.

(** The collector on a snapshot that holds the state mapping next to the
    parameter groups. *)
Lemma fetch_add_state_and_params (pms : list (tensor * tensor))
    (snapshot : pyval) (depth : nat) :
  Forall (param_with_momentum pms) pms ->
  exists st,
    fetch_add (S (S (S (S (S (S (S depth)))))))
              (mkOptimizer snapshot (state_items pms))
              (state_and_params_snapshot pms) (mkOptimizerState [] [])
    = Ok st
    /\ gradients st
       = flat_map (fun pm => gradient_of (fst pm)) pms
         ++ flat_map (fun pm => gradient_of (fst pm)) pms.
Proof.
  intros Hwf. unfold state_and_params_snapshot.
  rewrite fetch_add_dict. cbn [for_each_item].
  rewrite fetch_add_str, fetch_add_dict.
  destruct (@fetch_add_state_items pms snapshot (S (S depth)) Hwf pms
              (mkOptimizerState [] []) (incl_refl pms))
    as (st1 & -> & H1).
  rewrite fetch_add_str.
  destruct (@fetch_add_param_groups pms snapshot depth (map fst pms) st1 Hwf)
    as (st2 & -> & H2).
  { apply Forall_forall. intros p Hp.
    apply in_map_iff in Hp as (pm & <- & Hpm).
    rewrite Forall_forall in Hwf. now destruct (Hwf pm Hpm). }
  exists st2. split; [reflexivity|].
  rewrite H2, H1. simpl. clear.
  f_equal. induction pms as [|pm pms IH]; simpl; [reflexivity|].
  now rewrite IH.
Qed.

(** Once the optimizer keeps momentum state, the snapshot holds the state
    mapping, keyed by the parameters, next to the parameter groups.  The
    collector then meets every parameter twice, as a key of the mapping and
    as a member of its group: the gradient list is the list of the
    gradients of the parameters, in their order, followed by the same list
    again. *)
Theorem collector_with_momentum_state (pms : list (tensor * tensor))
    (limit : nat) :
  (7 <= limit)%nat ->
  Forall (param_with_momentum pms) pms ->
  exists st,
    _fetch_optimizer_state limit
      (mkOptimizer (state_and_params_snapshot pms) (state_items pms))
    = Ok st
    /\ gradients st
       = flat_map (fun pm => gradient_of (fst pm)) pms
         ++ flat_map (fun pm => gradient_of (fst pm)) pms.
Proof.
  intros Hlimit Hwf.
  replace limit with (S (S (S (S (S (S (S (limit - 7)))))))) by lia.
  unfold _fetch_optimizer_state. cbn [getstate].
  now apply fetch_add_state_and_params.
Qed.

Lemma collector_with_momentum_state_witness :
  exists st,
    _fetch_optimizer_state 1000 sample_torch_optimizer = Ok st
    /\ gradients st
       = [VTensor (data sample_g0); VTensor (data sample_g1);
          VTensor (data sample_g0); VTensor (data sample_g1)].
Proof.
  apply (@collector_with_momentum_state sample_pms 1000).
  - lia.
  - apply Forall_cons; [|apply Forall_cons; [|apply Forall_nil]];
      (split; [reflexivity | split; [reflexivity | simpl; lia]]).
Defined.

(* ================================================================== *)
(** ** Further properties of the step synchronizer *)

(** When the collector raises, [optimizer_step] raises the same exception
    before anything is asked of the runtime: the replica count is not
    queried, nothing is reduced, the optimizer does not step and no marker
    is emitted. *)
Theorem collector_failure_stops_step (W : Type) (rt : Runtime W)
    (optimizer : Optimizer) (closure : pyval) (w : W) (e : exn) :
  _fetch_optimizer_state (recursion_limit rt) optimizer = Raise e ->
  optimizer_step rt optimizer closure (w, []) = (Raise e, (w, [])).
Proof.
  intros Hf. unfold optimizer_step, bind, lift_result. now rewrite Hf.
Qed.

Lemma collector_failure_stops_step_witness :
  optimizer_step (sample_runtime 4 None (Ok tt))
    (mkOptimizer (VList [VTensor sample_p0])
                 [(VTensor sample_p0, VList [VTensor sample_p0])])
    VNone (tt, [])
  = (Raise RecursionError, (tt, [])).
Proof.
  apply (@collector_failure_stops_step unit (sample_runtime 4 None (Ok tt))
           (mkOptimizer (VList [VTensor sample_p0])
                        [(VTensor sample_p0, VList [VTensor sample_p0])])
           VNone tt RecursionError).
  vm_compute. reflexivity.
Defined.

(** When the cross-replica sum raises, [optimizer_step] raises the same
    exception and the optimizer does not step: the query of the replica
    count and the sum are the only calls made. *)
Theorem collective_failure_stops_step (W : Type) (rt : Runtime W)
    (optimizer : Optimizer) (closure : pyval) (w : W)
    (st : OptimizerState) (e : exn) (w1 : W) :
  _fetch_optimizer_state (recursion_limit rt) optimizer = Ok st ->
  let count := xla_replication_device_count rt w in
  (1 < count)%Z ->
  xla_cross_replica_sum rt (gradients st) (1 # Z.to_pos count) [] w
  = (Raise e, w1) ->
  optimizer_step rt optimizer closure (w, [])
  = (Raise e,
     (w1, [EvReplicationDeviceCount;
           EvCrossReplicaSum (gradients st) (1 # Z.to_pos count) []])).
Proof.
  intros Hf count Hc Hsum.
  rewrite (@optimizer_step_sum_raises W rt optimizer closure w st e w1
             Hf Hc Hsum).
  unfold calls_before_step, sum_event. fold count.
  apply Z.ltb_lt in Hc. now rewrite Hc.
Qed.

Lemma collective_failure_stops_step_witness :
  optimizer_step
    (sample_runtime_ending 2 (Raise (ExternalError "replica lost"))
                           (Ok sample_loss) (Ok tt))
    sample_optimizer VNone (tt, [])
  = (Raise (ExternalError "replica lost"),
     (tt, [EvReplicationDeviceCount;
           EvCrossReplicaSum (gradients sample_state) (1 # 2) []])).
Proof.
  apply (@collective_failure_stops_step unit
           (sample_runtime_ending 2 (Raise (ExternalError "replica lost"))
                                  (Ok sample_loss) (Ok tt))
           sample_optimizer VNone tt sample_state
           (ExternalError "replica lost") tt).
  - vm_compute. reflexivity.
  - simpl. lia.
  - reflexivity.
Defined.

(** When [optimizer.step] raises, [optimizer_step] raises the same
    exception: nothing is exported and no step marker is emitted, the call
    of [optimizer.step] being the last call made. *)
Theorem local_step_failure_skips_marker (W : Type) (rt : Runtime W)
    (optimizer : Optimizer) (closure : pyval) (w : W)
    (st : OptimizerState) (e : exn) (w2 : W) :
  _fetch_optimizer_state (recursion_limit rt) optimizer = Ok st ->
  ((1 < xla_replication_device_count rt w)%Z ->
   fst (xla_cross_replica_sum rt (gradients st)
          (1 # Z.to_pos (xla_replication_device_count rt w)) [] w) = Ok tt) ->
  optimizer_step_method rt optimizer closure (world_before_step rt st w)
  = (Raise e, w2) ->
  optimizer_step rt optimizer closure (w, [])
  = (Raise e,
     (w2, calls_before_step rt st w ++ [EvOptimizerStep closure])).
Proof.
  intros Hf Hsum Hstep.
  rewrite (@optimizer_step_reaches_step W rt optimizer closure w st Hf Hsum).
  unfold bind at 1. unfold call at 1. simpl fst. simpl snd.
  now rewrite Hstep.
Qed.

Lemma local_step_failure_skips_marker_witness :
  optimizer_step
    (sample_runtime_ending 1 (Ok tt) (Raise (ExternalError "nan loss"))
                           (Ok tt))
    sample_optimizer VNone (tt, [])
  = (Raise (ExternalError "nan loss"),
     (tt, [EvReplicationDeviceCount; EvOptimizerStep VNone])).
Proof.
  apply (@local_step_failure_skips_marker unit
           (sample_runtime_ending 1 (Ok tt)
                                  (Raise (ExternalError "nan loss")) (Ok tt))
           sample_optimizer VNone tt sample_state
           (ExternalError "nan loss") tt).
  - vm_compute. reflexivity.
  - simpl. lia.
  - reflexivity.
Defined.

(** When the step marker raises, [optimizer_step] raises the same
    exception although the optimizer has stepped: the loss that
    [optimizer.step] returned is not returned. *)
Theorem marker_failure_loses_loss (W : Type) (rt : Runtime W)
    (optimizer : Optimizer) (closure : pyval) (w : W)
    (st : OptimizerState) (loss : pyval) (w2 : W) (e : exn) (w4 : W) :
  _fetch_optimizer_state (recursion_limit rt) optimizer = Ok st ->
  ((1 < xla_replication_device_count rt w)%Z ->
   fst (xla_cross_replica_sum rt (gradients st)
          (1 # Z.to_pos (xla_replication_device_count rt w)) [] w) = Ok tt) ->
  optimizer_step_method rt optimizer closure (world_before_step rt st w)
  = (Ok loss, w2) ->
  debug_dump_dir rt w2 = None ->
  xla_step_marker rt (xla_get_default_device rt w2) w2 = (Raise e, w4) ->
  optimizer_step rt optimizer closure (w, [])
  = (Raise e,
     (w4, calls_before_step rt st w
          ++ [EvOptimizerStep closure; EvGetDefaultDevice;
              EvStepMarker (xla_get_default_device rt w2)])).
Proof.
  intros Hf Hsum Hstep Hdir Hm.
  rewrite (@optimizer_step_reaches_step W rt optimizer closure w st Hf Hsum).
  unfold bind at 1. unfold call at 1. simpl fst. simpl snd.
  rewrite Hstep. unfold bind.
  rewrite (@mark_step_no_export W rt st w2 _ Hdir).
  rewrite Hm. simpl. now rewrite <- app_assoc.
Qed.

Lemma marker_failure_loses_loss_witness :
  optimizer_step
    (sample_runtime_ending 1 (Ok tt) (Ok sample_loss)
                           (Raise (ExternalError "device lost")))
    sample_optimizer VNone (tt, [])
  = (Raise (ExternalError "device lost"),
     (tt, [EvReplicationDeviceCount; EvOptimizerStep VNone;
           EvGetDefaultDevice; EvStepMarker (VStr "xla:0")])).
Proof.
  apply (@marker_failure_loses_loss unit
           (sample_runtime_ending 1 (Ok tt) (Ok sample_loss)
                                  (Raise (ExternalError "device lost")))
           sample_optimizer VNone tt sample_state sample_loss tt
           (ExternalError "device lost") tt).
  - vm_compute. reflexivity.
  - simpl. lia.
  - reflexivity.
  - reflexivity.
  - reflexivity.
Defined.

(** [_mark_step] exports only when [SAVE_GRAPH_DIR] is set to a non-empty
    string; an empty string counts as unset.  Without export it makes two
    calls, the query of the default device and the step marker on that
    device.  With export, the export comes first, under the name
    [optimizer_step], and is given the gradients followed by the
    tensors. *)
Theorem mark_step_export_gate (W : Type) (rt : Runtime W)
    (st : OptimizerState) (w : W) (tr : list event) :
  (environ_get rt "SAVE_GRAPH_DIR" w = None
   \/ environ_get rt "SAVE_GRAPH_DIR" w = Some EmptyString ->
     _mark_step rt st (w, tr)
     = (fst (xla_step_marker rt (xla_get_default_device rt w) w),
        (snd (xla_step_marker rt (xla_get_default_device rt w) w),
         tr ++ [EvGetDefaultDevice;
                EvStepMarker (xla_get_default_device rt w)])))
  /\ (forall dir,
        environ_get rt "SAVE_GRAPH_DIR" w = Some dir ->
        dir <> EmptyString ->
        exists rest,
          snd (snd (_mark_step rt st (w, tr)))
          = tr ++ EvSaveTensorsGraph dir "optimizer_step"
                                     (gradients st ++ tensors st) :: rest).
Proof.
  split.
  - intros Henv. apply mark_step_no_export. unfold debug_dump_dir.
    destruct Henv as [-> | ->]; reflexivity.
  - intros dir Henv Hne.
    assert (Hd : debug_dump_dir rt w = Some dir).
    { unfold debug_dump_dir. rewrite Henv.
      destruct (String.eqb dir "") eqn:E; [|reflexivity].
      apply String.eqb_eq in E. contradiction. }
    destruct (save_tensors_graph rt dir "optimizer_step"
                (gradients st ++ tensors st) w) as [[u|e] w'] eqn:Hs.
    + rewrite (@mark_step_export_ok W rt st w tr dir u w' Hd Hs).
      simpl. eexists. reflexivity.
    + rewrite (@mark_step_export_raises W rt st w tr dir e w' Hd Hs).
      simpl. eexists. reflexivity.
Qed.

Lemma mark_step_export_gate_witness :
  _mark_step (sample_runtime 1 (Some EmptyString) (Raise IndexError))
             (mkOptimizerState [sample_t0] []) (tt, [])
  = (Ok tt, (tt, [EvGetDefaultDevice; EvStepMarker (VStr "xla:0")])).
Proof.
  destruct (@mark_step_export_gate unit
              (sample_runtime 1 (Some EmptyString) (Raise IndexError))
              (mkOptimizerState [sample_t0] []) tt []) as [H _].
  apply H. right. reflexivity.
Defined.

(* ================================================================== *)
(** ** Device discovery *)

Section DeviceFacts.

Variable re_match : string -> string -> bool.
Variable _XLA_DEVICES : list string.

Lemma kind_devices_loop_spec (kind : string) :
  forall devices i acc,
    kind_devices_loop re_match kind devices i acc
    = acc ++ map (fun j => format_xla (Z.of_nat j))
                 (filter (fun j => re_match (kind_pattern kind)
                                            (nth (j - i) devices EmptyString))
                         (seq i (length devices))).
Proof.
  induction devices as [|d rest IH]; intros i acc; simpl.
  - now rewrite app_nil_r.
  - rewrite IH, Nat.sub_diag.
    assert (E : filter (fun j => re_match (kind_pattern kind)
                                   (nth (j - S i) rest EmptyString))
                       (seq (S i) (length rest))
                = filter (fun j => re_match (kind_pattern kind)
                                   match (j - i)%nat with
                                   | O => d
                                   | S m => nth m rest EmptyString
                                   end)
                         (seq (S i) (length rest))).
    { apply filter_ext_in. intros j Hj. apply in_seq in Hj.
      now replace (j - i)%nat with (S (j - S i)) by lia. }
    rewrite E.
    destruct (re_match (kind_pattern kind) d); simpl;
      [now rewrite <- app_assoc | reflexivity].
Qed.

Lemma kind_devices_matching (kind : string) :
  kind_devices_loop re_match kind _XLA_DEVICES 0 []
  = map (fun j => format_xla (Z.of_nat j))
        (matching_indices re_match _XLA_DEVICES kind).
Proof.
  rewrite kind_devices_loop_spec. simpl. unfold matching_indices.
  f_equal. apply filter_ext. intros j. now rewrite Nat.sub_0_r.
Qed.

Lemma devkind_loop_spec :
  forall kinds,
    match devkind_loop re_match _XLA_DEVICES kinds with
    | None =>
        Forall (fun k => matching_indices re_match _XLA_DEVICES k = []) kinds
    | Some names =>
        exists earlier kind later,
          kinds = earlier ++ kind :: later
          /\ Forall (fun k => matching_indices re_match _XLA_DEVICES k = [])
                    earlier
          /\ matching_indices re_match _XLA_DEVICES kind <> []
          /\ names = map (fun j => format_xla (Z.of_nat j))
                         (matching_indices re_match _XLA_DEVICES kind)
    end.
Proof.
  induction kinds as [|k kinds IH]; simpl; [constructor|].
  rewrite kind_devices_matching.
  destruct (matching_indices re_match _XLA_DEVICES k) as [|j js] eqn:E.
  - simpl. destruct (devkind_loop re_match _XLA_DEVICES kinds).
    + destruct IH as (earlier & kind & later & -> & H1 & H2 & H3).
      exists (k :: earlier), kind, later. repeat split; auto.
    + now constructor.
  - simpl. exists [], k, kinds. rewrite E. repeat split; auto.
    discriminate.
Qed.

End DeviceFacts.

Lemma format_int_inj (a b : Z) : format_int a = format_int b -> a = b.
Proof.
  unfold format_int. intros H.
  assert (Hn : forall z, Z.to_int z <> Pos Nil /\ Z.to_int z <> Neg Nil).
  { intros [|p|p]; simpl; split; try discriminate;
      intros [= E]; now apply (Unsigned.to_uint_nonnil p). }
  apply (f_equal NilZero.int_of_string) in H.
  rewrite !NilZero.isi in H by apply Hn.
  injection H as H. apply (f_equal Z.of_int) in H.
  now rewrite !DecimalZ.of_to in H.
Qed.

Lemma format_xla_inj (a b : Z) : format_xla a = format_xla b -> a = b.
Proof.
  unfold format_xla. simpl. intros [= H]. now apply format_int_inj.
Qed.


(** [get_xla_supported_devices] returns the devices of one kind only: the
    first kind of the list, in the order of the list, that some device
    name matches.  Its value is then the list of ['xla:i'] for the indices
    [i] of all the device names that match that kind, in ascending order,
    and this list is not empty; it is [None] exactly when no device matches
    any kind.  With no kinds given, or an empty list of kinds, the kinds are
    TPU, GPU, CPU in this order. *)
Theorem supported_devices_of_first_kind
    (re_match : string -> string -> bool) (devices : list string)
    (devkind : option (list string)) :
  let kinds := match devkind with
               | Some (kind :: rest) => kind :: rest
               | _ => ["TPU"; "GPU"; "CPU"]%string
               end in
  match get_xla_supported_devices re_match devices devkind with
  | None => Forall (fun k => matching_indices re_match devices k = []) kinds
  | Some names =>
      names <> []
      /\ exists earlier kind later,
           kinds = earlier ++ kind :: later
           /\ Forall (fun k => matching_indices re_match devices k = [])
                     earlier
           /\ names = map (fun j => format_xla (Z.of_nat j))
                          (matching_indices re_match devices kind)
  end.
Proof.
  intros kinds. unfold get_xla_supported_devices. fold kinds.
  pose proof (devkind_loop_spec re_match devices kinds) as H.
  destruct (devkind_loop re_match devices kinds) as [names|]; [|exact H].
  destruct H as (earlier & kind & later & Hk & H1 & H2 & H3).
  split.
  - rewrite H3. intros E. apply map_eq_nil in E. contradiction.
  - now exists earlier, kind, later.
Qed.

(** The device names [get_xla_supported_devices] returns are pairwise
    distinct, and each is ['xla:i'] for an index [i] into the device
    list. *)
Theorem supported_devices_distinct
    (re_match : string -> string -> bool) (devices : list string)
    (devkind : option (list string)) (names : list string) :
  get_xla_supported_devices re_match devices devkind = Some names ->
  NoDup names
  /\ Forall (fun name => exists j, (j < length devices)%nat
                                   /\ name = format_xla (Z.of_nat j)) names.
Proof.
  unfold get_xla_supported_devices. intros H.
  set (kinds := match devkind with
                | Some (kind :: rest) => kind :: rest
                | _ => ["TPU"; "GPU"; "CPU"]%string
                end) in H.
  pose proof (devkind_loop_spec re_match devices kinds) as Hs.
  rewrite H in Hs. destruct Hs as (earlier & kind & later & _ & _ & _ & ->).
  unfold matching_indices. split.
  - apply Injective_map_NoDup.
    + intros i j E. apply format_xla_inj in E. lia.
    + apply NoDup_filter, seq_NoDup.
  - apply Forall_forall. intros name Hin.
    apply in_map_iff in Hin as (j & <- & Hj).
    apply filter_In in Hj as [Hj _]. apply in_seq in Hj.
    exists j. split; [lia | reflexivity].
Qed.

Lemma supported_devices_distinct_witness :
  NoDup ["xla:1"; "xla:2"]%string
  /\ Forall (fun name => exists j, (j < length sample_devices)%nat
                                   /\ name = format_xla (Z.of_nat j))
            ["xla:1"; "xla:2"]%string.
Proof.
  apply (@supported_devices_distinct sample_re_match sample_devices None
           ["xla:1"; "xla:2"]%string).
  vm_compute. reflexivity.
Defined.



(* ================================================================== *)
(** ** A conversion that returns too few buffers *)

Lemma replace_loop_short ct (a : ToXlaTensorArena) (conv : list pyval)
    (l : list pyval) :
  _converted_tensors a = Some conv ->
  Forall (fun x => forall n,
              no_stray_handle ct x = true ->
              leaves_of ct x <> [] ->
              (length conv < n + length (leaves_of ct x))%nat ->
              _replace_tensors (relabel ct handle x n) a
              = (Raise AssertionError, a)) l ->
  forall n acc,
    forallb (no_stray_handle ct) l = true ->
    flat_map (leaves_of ct) l <> [] ->
    (length conv < n + length (flat_map (leaves_of ct) l))%nat ->
    replace_loop _replace_tensors (relabel_list ct handle l n) acc a
    = (Raise AssertionError, a).
Proof.
  intros Hc. induction 1 as [|x l Hx _ IHl]; intros n acc Hns Hne Hlen;
    simpl in *; [now elim Hne|].
  apply andb_prop in Hns as [Hns1 Hns2]. rewrite length_app in Hlen.
  pose proof (replace_spec ct x) as Hrs. unfold replace_closed_form in Hrs.
  destruct (leaves_of ct x) as [|b bs] eqn:Ex.
  - (* nothing to look up under this element *)
    rewrite (bind_ok _ _ _
               (Hrs a (fun k => nth k conv VNone) n Hns1
                  ltac:(simpl; intros k Hk; lia))).
    simpl in *. rewrite Nat.add_0_r. now apply IHl.
  - destruct (Nat.le_gt_cases (n + length (b :: bs)) (length conv))
      as [Hfit | Hshort].
    + (* the handles under this element are all answered *)
      rewrite (bind_ok _ _ _
                 (Hrs a (fun k => nth k conv VNone) n Hns1
                    ltac:(intros k Hk;
                          apply get_converted_handle; [exact Hc | lia]))).
      apply IHl; [exact Hns2 | | lia].
      intros E. rewrite E in Hlen. simpl in Hlen, Hfit. lia.
    + unfold bind. rewrite Hx; [reflexivity | exact Hns1 | | ].
      * discriminate.
      * exact Hshort.
Qed.

Lemma replace_short ct (a : ToXlaTensorArena) (conv : list pyval) :
  _converted_tensors a = Some conv ->
  forall x n,
    no_stray_handle ct x = true ->
    leaves_of ct x <> [] ->
    (length conv < n + length (leaves_of ct x))%nat ->
    _replace_tensors (relabel ct handle x n) a = (Raise AssertionError, a).
Proof.
  intros Hc.
  induction x as [v l Hl IH | v Hv] using pyval_seq_ind;
    intros n Hns Hne Hlen; destruct (pytype_eqb (type_ v) ct) eqn:E.
  - rewrite relabel_leaf by exact E.
    rewrite leaves_of_leaf in Hlen by exact E. simpl in Hlen.
    unfold handle. simpl. unfold get_converted_tensor. rewrite Hc.
    assert (G : (Z.of_nat n <? Z.of_nat (length conv))%Z = false)
      by (apply Z.ltb_ge; lia).
    now rewrite G.
  - rewrite relabel_sequence with (l := l) by assumption.
    rewrite leaves_of_sequence with (l := l) in Hne, Hlen by assumption.
    rewrite no_stray_handle_sequence with (l := l) in Hns by assumption.
    simpl. now apply (@replace_loop_short ct a conv l Hc IH).
  - rewrite relabel_leaf by exact E.
    rewrite leaves_of_leaf in Hlen by exact E. simpl in Hlen.
    unfold handle. simpl. unfold get_converted_tensor. rewrite Hc.
    assert (G : (Z.of_nat n <? Z.of_nat (length conv))%Z = false)
      by (apply Z.ltb_ge; lia).
    now rewrite G.
  - rewrite leaves_of_atom in Hne by assumption. now elim Hne.
Qed.

(** A conversion function that returns fewer buffers than it was given is
    found out at rehydration: when the structure holds a leaf, collecting
    and converting succeed and rehydrating raises [AssertionError]; no
    structure with missing buffers is returned. *)
Theorem short_conversion_detected (ct : pytype) (S device : pyval)
    (a0 : ToXlaTensorArena) :
  let tagged := map (fun _ => device) (leaves_of ct S) in
  let converted :=
    convert_fn a0 (_tensors a0 ++ leaves_of ct S)
               (_devices a0 ++ filter is_not_None tagged) in
  no_stray_handle ct S = true ->
  arena_accepts ct a0 ->
  leaves_of ct S <> [] ->
  (length converted < length (_tensors a0 ++ leaves_of ct S))%nat ->
  exists mirrored a1 a2,
    _collect_tensors ct S None device a0 = (Ok mirrored, a1)
    /\ convert a1 = (Ok tt, a2)
    /\ _converted_tensors a2 = Some converted
    /\ _replace_tensors mirrored a2 = (Raise AssertionError, a2).
Proof.
  intros tagged converted Hns Ha Hne Hlen.
  set (a1 := extend a0 (leaves_of ct S) tagged).
  assert (Hnonempty : _tensors a1 <> []).
  { unfold a1. simpl. intros E. apply app_eq_nil in E as [_ E].
    contradiction. }
  assert (Hconv : _converted_tensors (snd (convert a1)) = Some converted)
    by (now rewrite convert_converted).
  exists (relabel ct handle S (length (_tensors a0))), a1, (snd (convert a1)).
  split; [now apply collect_spec|].
  split; [unfold convert; destruct (_tensors a1); reflexivity|].
  split; [exact Hconv|].
  apply replace_short with converted; try assumption.
  rewrite length_app in Hlen. exact Hlen.
Qed.

Lemma short_conversion_detected_witness :
  exists mirrored a1 a2,
    _collect_tensors (TyBuffer TorchTensor) sample_structure None (VStr "")
                     (new_arena (fun bs _ => tl bs))
    = (Ok mirrored, a1)
    /\ convert a1 = (Ok tt, a2)
    /\ _converted_tensors a2 = Some [sample_t1; sample_t2]
    /\ _replace_tensors mirrored a2 = (Raise AssertionError, a2).
Proof.
  apply (@short_conversion_detected (TyBuffer TorchTensor) sample_structure
           (VStr "") (new_arena (fun bs _ => tl bs))).
  - reflexivity.
  - exact I.
  - discriminate.
  - simpl. lia.
Defined.
